(** * blynk.py: a shallow embedding and its verified properties

    The script reads and sets pins of statically configured devices through
    the blynk HTTP API.  Python values are embedded as an inductive type,
    IEEE doubles as [spec_float] at precision 53, the configuration table as
    an association list in dictionary order, and the HTTP traffic as a log
    of requests threaded through a state-and-exception monad. *)

From Stdlib Require Import ZArith List String Ascii Bool Lia.
From Stdlib Require Import Floats.SpecFloat Numbers.DecimalString.
Import ListNotations.
#[local] Set Warnings "-register-all".
Local Open Scope string_scope.
Local Open Scope Z_scope.

(** ** Python values *)

(** A Python [float] is a binary64 number. *)
Definition float := spec_float.

Definition prec : Z := 53.
Definition emax : Z := 1024.

(** What [process_pin] returns and what is written to a pin: an [int] or a
    [float]. *)
Inductive num : Type :=
  | Int (z : Z)
  | Float (f : float).

(** The values the script handles: the decoded JSON payload of a response,
    strings of the command line, and numbers. *)
Inductive pyval : Type :=
  | PNone
  | PBool (b : bool)
  | PNum (n : num)
  | PStr (s : string)
  | PList (l : list pyval)
  | PDict (l : list (string * pyval)).

Inductive exn : Type :=
  | KeyError (key : pyval)
  | IndexError
  | TypeError
  | ValueError
  | OverflowError
  | ConnectionError
  | JSONDecodeError.

Inductive outcome (A : Type) : Type :=
  | Ok (a : A)
  | Raise (e : exn).
Arguments Ok {A} a.
Arguments Raise {A} e.

(** ** Floats *)

(** [float.is_integer]: a finite float [m * 2^e] with no fractional bits. *)
Definition is_integer (f : float) : bool :=
  match f with
  | S754_zero _ => true
  | S754_infinity _ | S754_nan => false
  | S754_finite _ m e =>
      if 0 <=? e then true else Z.pos m mod 2 ^ (- e) =? 0
  end.

(** [int(f)] on a float: truncation towards zero. *)
Definition int_of_float (f : float) : outcome Z :=
  match f with
  | S754_zero _ => Ok 0
  | S754_infinity _ => Raise OverflowError
  | S754_nan => Raise ValueError
  | S754_finite s m e =>
      let a := if 0 <=? e then Z.pos m * 2 ^ e else Z.pos m / 2 ^ (- e) in
      Ok (if s then - a else a)
  end.

(** [float(z)] on an int: round to nearest even, [OverflowError] beyond the
    largest double. *)
Definition float_of_int (z : Z) : outcome float :=
  match binary_normalize prec emax z 0 false with
  | S754_infinity _ => Raise OverflowError
  | f => Ok f
  end.

(** ** Strings *)

Definition nl : string := String (ascii_of_nat 10) EmptyString.

(** [x in t] for a tuple or list of strings. *)
Definition mem (x : string) (t : list string) : bool :=
  existsb (String.eqb x) t.

(** [s[:n]]. *)
Definition prefix_of (n : nat) (s : string) : string := substring 0 n s.

(** [s[:-1:]]: everything but the last character. *)
Definition drop_last (s : string) : string :=
  substring 0 (String.length s - 1) s.

Fixpoint spaces (n : nat) : string :=
  match n with
  | O => EmptyString
  | S n' => String " " (spaces n')
  end.

(** The format specification [" <w"]: left-aligned, filled with spaces up to
    width [w], never truncated. *)
Definition ljust (s : string) (w : nat) : string :=
  s ++ spaces (w - String.length s).

(** [str(z)] on an int. *)
Definition str_of_int (z : Z) : string := NilZero.string_of_int (Z.to_int z).

(** ** Configuration *)

(** An entry of [all_devices]: a dictionary in which each of the four keys
    may be absent. *)
Record device : Type := {
  pin : option string;
  auth : option string;
  default : option Z;
  group : option string
}.

(** The module-level configuration of the script.  [all_devices] is a
    dictionary, listed in insertion order. *)
Class Config : Type := {
  server : string;
  all_devices : list (string * device);
  exclude : list string;
  groups : list string
}.

(** What the interpreter provides: the parser of float literals ([None]
    stands for [ValueError]) and the rendering of a float by [str] and by
    an empty format type. *)
Class Builtins : Type := {
  float_of_string : string -> option float;
  float_repr : float -> string
}.

(** ** The remote service *)

Inductive request : Type :=
  | Update (base auth_token pin : string) (value : num)
  | Get (base auth_token pin : string).

(** What [requests.get] yields: an exception of the transport, or a response
    whose body decodes to a JSON value or does not decode. *)
Inductive reply : Type :=
  | Unreachable
  | Response (body : option pyval).

(** The service answers a request knowing the requests made before it. *)
Class Network : Type := {
  remote : list request -> request -> reply
}.

(** What is passed to [print]. *)
Inductive printed : Type :=
  | PrintStr (s : string)
  | PrintNum (n : num)
  | PrintDict (d : list (string * num)).

(** The observable state of a run: the requests sent and the objects
    printed, oldest first. *)
Record world : Type := {
  sent : list request;
  stdout : list printed
}.

Definition start : world := {| sent := []; stdout := [] |}.

(** The state after one more request. *)
Definition after (w : world) (r : request) : world :=
  {| sent := sent w ++ [r]; stdout := stdout w |}.

(** ** Computations that send requests, print and raise *)

Definition io (A : Type) : Type := world -> outcome A * world.

Definition ret {A} (a : A) : io A := fun w => (Ok a, w).

Definition lift {A} (o : outcome A) : io A := fun w => (o, w).

Definition bind {A B} (c : io A) (k : A -> io B) : io B :=
  fun w =>
    match c w with
    | (Ok a, w') => k a w'
    | (Raise e, w') => (Raise e, w')
    end.

Notation "x <- c ;; k" := (bind c (fun x => k))
  (at level 61, c at next level, right associativity).
Notation "c ;;; k" := (bind c (fun _ => k))
  (at level 61, right associativity).

Definition print (p : printed) : io unit :=
  fun w => (Ok tt, {| sent := sent w; stdout := stdout w ++ [p] |}).

(** The same sequencing for code that raises but neither sends nor
    prints. *)
Definition and_then {A B} (o : outcome A) (k : A -> outcome B) : outcome B :=
  match o with
  | Ok a => k a
  | Raise e => Raise e
  end.

Notation "x <~ o ;; k" := (and_then o (fun x => k))
  (at level 61, o at next level, right associativity).

Section Script.

Context {builtins : Builtins} {config : Config} {network : Network}.

(** [requests.get(url)]: the request is on the wire whatever the answer. *)
Definition requests_get (r : request) : io (option pyval) :=
  fun w =>
    let w' := {| sent := sent w ++ [r]; stdout := stdout w |} in
    match remote (sent w) r with
    | Unreachable => (Raise ConnectionError, w')
    | Response body => (Ok body, w')
    end.

(** [r.json()]. *)
Definition json (body : option pyval) : outcome pyval :=
  match body with
  | Some j => Ok j
  | None => Raise JSONDecodeError
  end.

(** [j[0]]. *)
Definition subscript0 (j : pyval) : outcome pyval :=
  match j with
  | PList (x :: _) => Ok x
  | PList [] => Raise IndexError
  | PStr (String c _) => Ok (PStr (String c EmptyString))
  | PStr EmptyString => Raise IndexError
  | PDict _ => Raise (KeyError (PNum (Int 0)))
  | PNone | PBool _ | PNum _ => Raise TypeError
  end.

(** [all_devices[name]]. *)
Fixpoint assoc {A} (name : string) (d : list (string * A)) : option A :=
  match d with
  | [] => None
  | (k, v) :: d' => if String.eqb name k then Some v else assoc name d'
  end.

Definition lookup (name : string) : outcome device :=
  match assoc name all_devices with
  | Some d => Ok d
  | None => Raise (KeyError (PStr name))
  end.

(** [d[key]] on an entry. *)
Definition field {A} (key : string) (v : option A) : outcome A :=
  match v with
  | Some a => Ok a
  | None => Raise (KeyError (PStr key))
  end.

(** [all_devices[name][key]]. *)
Definition entry {A} (name key : string) (get : device -> option A)
  : outcome A :=
  match lookup name with
  | Ok d => field key (get d)
  | Raise e => Raise e
  end.

(** [float(value)]. *)
Definition to_float (value : pyval) : outcome float :=
  match value with
  | PNum (Int z) => float_of_int z
  | PNum (Float f) => Ok f
  | PBool b => Ok (if b then SFone prec emax else S754_zero false)
  | PStr s =>
      match float_of_string s with
      | Some f => Ok f
      | None => Raise ValueError
      end
  | PNone | PList _ | PDict _ => Raise TypeError
  end.

(** ** The pin value codec *)

Definition process_pin (value : pyval) (default_state : Z) : outcome num :=
  match to_float value with
  | Raise e => Raise e
  | Ok value =>
      if is_integer value then
        match int_of_float value with
        | Ok i => Ok (Int (Z.lxor i default_state))
        | Raise e => Raise e
        end
      else Ok (Float value)
  end.

(** ** The remote endpoint client *)

Definition set_to_state (name : string) (value : pyval) : io unit :=
  d <- lift (entry name "default" default) ;;
  value <- lift (process_pin value d) ;;
  p <- lift (entry name "pin" pin) ;;
  auth_token <- lift (entry name "auth" auth) ;;
  requests_get (Update server auth_token p value) ;;;
  ret tt.

(** [n == k] for a number and an int. *)
Definition num_eqb (n : num) (k : Z) : bool :=
  match n with
  | Int z => z =? k
  | Float f =>
      is_integer f &&
      match int_of_float f with
      | Ok z => z =? k
      | Raise _ => false
      end
  end.

(** [state in (0, 1)]. *)
Definition in_0_1 (state : num) : bool := num_eqb state 0 || num_eqb state 1.

Definition get_state (name : string) : io num :=
  p <- lift (entry name "pin" pin) ;;
  auth_token <- lift (entry name "auth" auth) ;;
  r <- requests_get (Get server auth_token p) ;;
  j <- lift (json r) ;;
  x <- lift (subscript0 j) ;;
  state <- lift (process_pin x 0) ;;
  if negb (in_0_1 state) || mem name exclude then ret state
  else
    d <- lift (entry name "default" default) ;;
    lift (process_pin (PNum state) d).

(** [state ^ 1]: defined on ints only. *)
Definition xor_1 (state : num) : outcome num :=
  match state with
  | Int z => Ok (Int (Z.lxor z 1))
  | Float _ => Raise TypeError
  end.

Definition flip_state (name : string) : io unit :=
  state <- get_state name ;;
  value <- lift (xor_1 state) ;;
  set_to_state name (PNum value).

(** The extra arguments of the source are those [func] is already applied
    to. *)
Fixpoint apply_function (devices : list string) (func : string -> io unit)
  : io unit :=
  match devices with
  | [] => ret tt
  | name :: devices' => func name ;;; apply_function devices' func
  end.

(** ** Presentation *)

(** [status[name] = state]: a present key keeps its place. *)
Fixpoint dict_set (status : list (string * num)) (name : string) (state : num)
  : list (string * num) :=
  match status with
  | [] => [(name, state)]
  | (k, v) :: status' =>
      if String.eqb name k then (k, state) :: status'
      else (k, v) :: dict_set status' name state
  end.

Fixpoint get_status_loop (devices : list string) (status : list (string * num))
  : io (list (string * num)) :=
  match devices with
  | [] => ret status
  | name :: devices' =>
      state <- get_state name ;;
      get_status_loop devices' (dict_set status name state)
  end.

Definition get_status_as_dict (devices : list string)
  : io (list (string * num)) :=
  get_status_loop devices [].

(** [format(n, "")] and [str(n)]. *)
Definition str_of_num (n : num) : string :=
  match n with
  | Int z => str_of_int z
  | Float f => float_repr f
  end.

(** [max(len(x) for x in status_dict)]. *)
Definition max_key_len (status_dict : list (string * num)) : outcome nat :=
  match status_dict with
  | [] => Raise ValueError
  | _ => Ok (fold_right (fun kv m => Nat.max (String.length (fst kv)) m)
               O status_dict)
  end.

(** One pass of the loop of [print_status]. *)
Definition add_row (max_len : nat) (table : string) (item : string * num)
  : string :=
  table ++ ljust (fst item) max_len ++ ": " ++ ljust (str_of_num (snd item)) 3
        ++ " " ++ nl.

Definition render (status_dict : list (string * num)) : outcome string :=
  match max_key_len status_dict with
  | Raise e => Raise e
  | Ok m =>
      let max_len := (m + 1)%nat in
      let table := fold_left (add_row max_len) status_dict "" in
      Ok (drop_last table)
  end.

Definition print_status (devices : list string) : io string :=
  status_dict <- get_status_as_dict devices ;;
  lift (render status_dict).

(** ** The device resolver *)

(** [all_devices[name].get("group")] for a key [name] of the table. *)
Definition get_group (name : string) : option string :=
  match assoc name all_devices with
  | Some d => group d
  | None => None
  end.

(** [token == g] where [g] is a string or [None]. *)
Definition eq_opt (token : string) (g : option string) : bool :=
  match g with
  | Some s => String.eqb token s
  | None => false
  end.

(** [all_devices.keys()]. *)
Definition keys : list string := map fst all_devices.

Definition choose_devices (action : string) (args : list string)
  : outcome (list string) :=
  match args with
  | [] => Raise IndexError
  | first :: _ =>
      if mem first ["all"; "a"] then
        Ok (filter (fun x => negb (mem x exclude)
                             || mem (prefix_of 1 action) ["s"; "p"]) keys)
      else if mem first groups then
        Ok (filter (fun x => eq_opt first (get_group x)
                             && (negb (mem x exclude)
                                 || mem (prefix_of 1 action) ["s"; "p"])) keys)
      else Ok args
  end.

(** ** The action dispatcher *)

(** [[all_devices[device]["group"] for device in args]]. *)
Fixpoint groups_of (args : list string) : outcome (list string) :=
  match args with
  | [] => Ok []
  | name :: args' =>
      g <~ entry name "group" group ;;
      gs <~ groups_of args' ;;
      Ok (g :: gs)
  end.

(** The comprehension of the [just] branch over the candidates [names]: the
    tests of one candidate run left to right and stop at the first that
    fails. *)
Fixpoint devices_to_turn_off (args names : list string)
  : outcome (list string) :=
  match names with
  | [] => Ok []
  | name :: names' =>
      keep <~ (if mem name exclude then Ok false
               else
                 g <~ entry name "group" group ;;
                 gs <~ groups_of args ;;
                 Ok (mem g gs && negb (mem name args))) ;;
      rest <~ devices_to_turn_off args names' ;;
      Ok (if keep then name :: rest else rest)
  end.

Definition take_action (action : string) (args : list string) : io unit :=
  if String.eqb (prefix_of 1 action) "f" then
    apply_function args flip_state
  else if String.eqb (prefix_of 2 action) "of" then
    apply_function args (fun name => set_to_state name (PNum (Int 0)))
  else if String.eqb action "on" then
    apply_function args (fun name => set_to_state name (PNum (Int 1)))
  else if String.eqb (prefix_of 1 action) "j" then
    apply_function args (fun name => set_to_state name (PNum (Int 1))) ;;;
    off <- lift (devices_to_turn_off args keys) ;;
    apply_function off (fun name => set_to_state name (PNum (Int 0)))
  else if String.eqb (prefix_of 1 action) "p" then
    table <- print_status args ;;
    print (PrintStr table)
  else if String.eqb (prefix_of 1 action) "s" then
    match args with
    | [name] =>
        state <- get_state name ;;
        print (PrintNum state)
    | _ =>
        status <- get_status_as_dict args ;;
        print (PrintDict status)
    end
  else
    match float_of_string action with
    | None => lift (Raise ValueError)
    | Some value =>
        apply_function args (fun name => set_to_state name (PNum (Float value)))
    end.

Definition help : string :=
  String.concat nl
    ["Usage: blynk.py [DEVICE(S)] [ACTION]";
     "";
     "Small python script to interact with the blynk HTTP api.";
     "";
     "Actions:";
     "  on         Turn the device(s) on";
     "  of(f)      Turn the device(s) off";
     "  f(lip)     Flip the device(s)";
     "  j(ust)     Turn the device(s) on and turn off every other device in the same group";
     "  p(rint)    Print the status of the device(s) as a table";
     "  s(tatus)   Print the status of the device(s) in dict/json format";
     "  any int/float for setting a pin to an arbitrary value"].

(** The script body; [argv] is [sys.argv], the script's name first. *)
Definition main (argv : list string) : io unit :=
  if (List.length argv <? 3)%nat then print (PrintStr help)
  else
    let rest := tl argv in
    let args := removelast rest in
    let action := last rest "" in
    devices_to_modify <- lift (choose_devices action args) ;;
    take_action action devices_to_modify.

(** The address a request goes to. *)
Definition url (r : request) : string :=
  match r with
  | Update base auth_token p value =>
      base ++ "/" ++ auth_token ++ "/update/" ++ p ++ "?value="
           ++ str_of_num value
  | Get base auth_token p => base ++ "/" ++ auth_token ++ "/get/" ++ p
  end.

End Script.

(** ** Vocabulary of the statements *)

Section Vocabulary.

Context {config : Config}.

(** The entry of a device has all four keys. *)
Definition complete (name : string) : Prop :=
  exists d p a flag g,
    assoc name all_devices = Some d /\ pin d = Some p /\ auth d = Some a
    /\ default d = Some flag /\ group d = Some g.

(** [r] is the request that writes the logical value [v] to a device: it
    carries [v] exclusive-or the default flag. *)
Definition writes_to (v : Z) (name : string) (r : request) : Prop :=
  exists d p a flag,
    assoc name all_devices = Some d /\ pin d = Some p /\ auth d = Some a
    /\ default d = Some flag /\ r = Update server a p (Int (Z.lxor v flag)).

(** The group of [name] is the group of some device of [args]. *)
Definition shares_group (args : list string) (name : string) : bool :=
  existsb (fun a => match get_group a with
                    | Some g => eq_opt g (get_group name)
                    | None => false
                    end) args.

(** The devices the [just] action is to turn off. *)
Definition others (args : list string) (name : string) : bool :=
  negb (mem name exclude) && shares_group args name && negb (mem name args).

(** The length of the longest name of a mapping. *)
Definition longest (status_dict : list (string * num)) : nat :=
  fold_right (fun kv m => Nat.max (String.length (fst kv)) m) O status_dict.

(** A row of the table, for a name column of [width] characters. *)
Definition row {builtins : Builtins} (width : nat) (item : string * num)
  : string :=
  ljust (fst item) width ++ ": " ++ ljust (str_of_num (snd item)) 3 ++ " ".

End Vocabulary.

(** Every read of the device succeeds. *)
Definition readable {builtins : Builtins} {config : Config}
           {network : Network} (name : string) : Prop :=
  forall w, exists state w1, get_state name w = (Ok state, w1).

(** The states the devices give when they are read one after the other, in
    the order of the list. *)
Fixpoint read_all {builtins : Builtins} {config : Config}
         {network : Network} (devices : list string) : io (list num) :=
  match devices with
  | [] => ret []
  | name :: devices' =>
      state <- get_state name ;;
      states <- read_all devices' ;;
      ret (state :: states)
  end.

(** ** The configuration of the source *)

Definition blynk : Config := {|
  server := "http://blynk-cloud.com";
  all_devices :=
    [("bedroom_light", {| pin := Some "V3"; auth := Some "<auth_token>";
                          default := Some 0; group := Some "bedroom" |});
     ("kitchen_light", {| pin := Some "d2"; auth := Some "<auth_token>";
                          default := Some 1; group := Some "kitchen" |});
     ("temperature", {| pin := Some "V6"; auth := Some "<auth_token>";
                        default := None; group := None |});
     ("humidity", {| pin := Some "V5"; auth := Some "<auth_token>";
                     default := None; group := None |})];
  exclude := ["temperature"; "humidity"];
  groups := ["bedroom"; "kitchen"]
|}.

(** ** The dispatch order, named *)

(** The branch of [take_action] an action token selects. *)
Inductive verb : Type :=
  | Flip | Off | On | Just | Print | Status | SetValue.

Definition verb_of (action : string) : verb :=
  if String.eqb (prefix_of 1 action) "f" then Flip
  else if String.eqb (prefix_of 2 action) "of" then Off
  else if String.eqb action "on" then On
  else if String.eqb (prefix_of 1 action) "j" then Just
  else if String.eqb (prefix_of 1 action) "p" then Print
  else if String.eqb (prefix_of 1 action) "s" then Status
  else SetValue.

(** The value an action token has [set_to_state] write, for the branches
    that write without reading first. *)
Definition written {builtins : Builtins} (action : string) : option pyval :=
  match verb_of action with
  | Off => Some (PNum (Int 0))
  | On | Just => Some (PNum (Int 1))
  | SetValue =>
      match float_of_string action with
      | Some value => Some (PNum (Float value))
      | None => None
      end
  | Flip | Print | Status => None
  end.

(** The action token selects the print or the status branch. *)
Definition reads (action : string) : bool :=
  match verb_of action with
  | Print | Status => true
  | _ => false
  end.

(** ** Stand-ins for the interpreter and the service, for concrete runs *)

(** An interpreter that reads plain decimal integer literals only (at
    least one digit, after an optional minus sign) and renders no float. *)
Definition decimal_builtins : Builtins := {|
  float_of_string := fun s =>
    match NilZero.int_of_string s with
    | Some i =>
        match float_of_int (Z.of_int i) with
        | Ok f => Some f
        | Raise _ => None
        end
    | None => None
    end;
  float_repr := fun _ => "nan"
|}.

(** A service that answers every request with the one-element array
    [[v]]. *)
Definition constant_service (v : pyval) : Network := {|
  remote := fun _ _ => Response (Some (PList [v]))
|}.

(** The service of the runs below: every read answers [["1"]]. *)
Definition ones : Network := constant_service (PStr "1").

(** The double 21.5. *)
Definition f21_5 : float := S754_finite false 6051711999279104 (-48).

(** ** Vocabulary of the further statements *)

Definition is_get (r : request) : bool :=
  match r with
  | Get _ _ _ => true
  | Update _ _ _ _ => false
  end.

Definition is_update (r : request) : bool := negb (is_get r).

(** From [w] to [w'] at most [n] requests were sent, all of the kind [P],
    and nothing was printed. *)
Definition extends (P : request -> bool) (n : nat) (w w' : world) : Prop :=
  exists reqs,
    sent w' = (sent w ++ reqs)%list /\ forallb P reqs = true
    /\ (List.length reqs <= n)%nat /\ stdout w' = stdout w.

(** What [get_state] makes of the body of a response: the lines of the
    source after the request. *)
Definition decode {builtins : Builtins} {config : Config} (name : string)
           (body : option pyval) : outcome num :=
  j <~ json body ;;
  x <~ subscript0 j ;;
  state <~ process_pin x 0 ;;
  if negb (in_0_1 state) || mem name exclude then Ok state
  else
    flag <~ entry name "default" default ;;
    process_pin (PNum state) flag.

(** [r] is the request that writes the raw value [v] to a device. *)
Definition writes_raw {config : Config} (v : num) (name : string)
           (r : request) : Prop :=
  exists d p a flag,
    assoc name all_devices = Some d /\ pin d = Some p /\ auth d = Some a
    /\ default d = Some flag /\ r = Update server a p v.

(** The value last written to a pin in a history of requests. *)
Fixpoint last_written (h : list request) (a p : string) : option num :=
  match h with
  | [] => None
  | Update _ a' p' v :: h' =>
      match last_written h' a p with
      | Some v' => Some v'
      | None => if String.eqb a a' && String.eqb p p' then Some v else None
      end
  | Get _ _ _ :: h' => last_written h' a p
  end.

(** A service that keeps what is written: a read answers the one-element
    array of the value last written to the pin, and [[0]] before any
    write. *)
Definition keeping_service : Network := {|
  remote := fun h r =>
    match r with
    | Get _ a p =>
        match last_written h a p with
        | Some v => Response (Some (PList [PNum v]))
        | None => Response (Some (PList [PNum (Int 0)]))
        end
    | Update _ _ _ _ => Response (Some (PList []))
    end
|}.

(** An interpreter that reads the literal ["21.5"] besides the decimal
    integers. *)
Definition fraction_builtins : Builtins := {|
  float_of_string := fun s =>
    if String.eqb s "21.5" then Some f21_5
    else float_of_string (Builtins := decimal_builtins) s;
  float_repr := fun _ => "nan"
|}.

(** * Properties *)

Section Codec.

Context {builtins : Builtins}.

Lemma process_pin_whole (value : pyval) (f : float) (i d : Z) :
  to_float value = Ok f -> is_integer f = true -> int_of_float f = Ok i ->
  process_pin value d = Ok (Int (Z.lxor i d)).
Proof.
  intros Hf Hi Hz. unfold process_pin. now rewrite Hf, Hi, Hz.
Qed.

Lemma process_pin_bit (b d : Z) :
  b = 0 \/ b = 1 -> process_pin (PNum (Int b)) d = Ok (Int (Z.lxor b d)).
Proof.
  intros [-> | ->].
  - now apply process_pin_whole with (f := S754_zero false).
  - now apply process_pin_whole
      with (f := S754_finite false 4503599627370496 (-52)).
Qed.

Lemma lxor_bit (b d : Z) :
  b = 0 \/ b = 1 -> d = 0 \/ d = 1 ->
  Z.lxor b d = 0 \/ Z.lxor b d = 1.
Proof. intros [-> | ->] [-> | ->]; cbn; auto. Qed.

(** A number that compares equal to the int [k] decodes as [k]. *)
Lemma process_pin_eq (value : num) (k d : Z) :
  k = 0 \/ k = 1 -> num_eqb value k = true ->
  process_pin (PNum value) d = Ok (Int (Z.lxor k d)).
Proof.
  intros Hk Heq. destruct value as [z | f]; cbn in Heq.
  - apply Z.eqb_eq in Heq. subst z. now apply process_pin_bit.
  - apply andb_true_iff in Heq. destruct Heq as [Hi Hz].
    destruct (int_of_float f) as [z | e] eqn:Hf; [| discriminate].
    apply Z.eqb_eq in Hz. subst z.
    now apply process_pin_whole with (f := f).
Qed.

(** C1: on the values 0 and 1 (as an int or as a float) and a default flag
    of 0 or 1, decoding twice with the same flag gives the value back. *)
Theorem process_pin_involution (value : num) (v d : Z) :
  v = 0 \/ v = 1 -> d = 0 \/ d = 1 -> num_eqb value v = true ->
  (x <~ process_pin (PNum value) d ;; process_pin (PNum x) d) = Ok (Int v).
Proof.
  intros Hv Hd Heq. rewrite (process_pin_eq value v d Hv Heq). cbn.
  rewrite process_pin_bit by now apply lxor_bit.
  now rewrite Z.lxor_assoc, Z.lxor_nilpotent, Z.lxor_0_r.
Qed.

End Codec.

Lemma process_pin_involution_witness :
  (x <~ process_pin (builtins := decimal_builtins) (PNum (Int 1)) 1 ;;
   process_pin (builtins := decimal_builtins) (PNum x) 1) = Ok (Int 1).
Proof.
  apply (process_pin_involution (builtins := decimal_builtins) (Int 1) 1 1).
  - right; reflexivity.
  - right; reflexivity.
  - reflexivity.
Defined.

Section Client.

Context {builtins : Builtins} {config : Config} {network : Network}.

Lemma entry_found {A} (name key : string) (get : device -> option A)
      (d : device) :
  assoc name all_devices = Some d -> entry name key get = field key (get d).
Proof. intros H. unfold entry, lookup. now rewrite H. Qed.

Lemma entry_some {A} (name key : string) (get : device -> option A)
      (d : device) (a : A) :
  assoc name all_devices = Some d -> get d = Some a ->
  entry name key get = Ok a.
Proof. intros H Ha. rewrite (entry_found _ _ _ d H). now rewrite Ha. Qed.

(** What [process_pin] decodes compares equal to 0 or 1 only when it is the
    int 0 or the int 1. *)
Lemma decoded_in_0_1 (x : pyval) (d : Z) (state : num) :
  process_pin x d = Ok state ->
  in_0_1 state = true <-> state = Int 0 \/ state = Int 1.
Proof.
  unfold process_pin. intros H.
  destruct (to_float x) as [f | e]; [| discriminate].
  destruct (is_integer f) eqn:Hi.
  - destruct (int_of_float f) as [i | e]; [| discriminate].
    injection H as <-. unfold in_0_1. cbn.
    rewrite orb_true_iff, !Z.eqb_eq.
    split; (intros [E | E]; [left | right]); congruence.
  - injection H as <-. unfold in_0_1. cbn. rewrite Hi. cbn.
    split; [discriminate | intros [E | E]; discriminate].
Qed.

(** C2: when the read of a device succeeds and the payload decodes to
    [state], [get_state] applies the inversion by the device's default flag
    exactly when [state] is the int 0 or 1 and the device is not excluded, and
    returns [state] itself in every other case. *)
Theorem get_state_inverts_iff (name : string) (d : device) (p a : string)
        (w : world) (j x : pyval) (state : num) :
  assoc name all_devices = Some d -> pin d = Some p -> auth d = Some a ->
  remote (sent w) (Get server a p) = Response (Some j) ->
  subscript0 j = Ok x ->
  process_pin x 0 = Ok state ->
  ((state = Int 0 \/ state = Int 1) /\ mem name exclude = false ->
   get_state name w =
     (flag <~ field "default" (default d) ;; process_pin (PNum state) flag,
      after w (Get server a p)))
  /\ (~ ((state = Int 0 \/ state = Int 1) /\ mem name exclude = false) ->
      get_state name w = (Ok state, after w (Get server a p))).
Proof.
  intros Hd Hp Ha Hr Hx Hs.
  pose proof (decoded_in_0_1 x 0 state Hs) as H01.
  assert (Hrun : get_state name w =
    (if negb (in_0_1 state) || mem name exclude then Ok state
     else flag <~ field "default" (default d) ;; process_pin (PNum state) flag,
     after w (Get server a p))).
  { unfold get_state, bind, lift, requests_get.
    rewrite (entry_some name "pin" pin d p Hd Hp).
    rewrite (entry_some name "auth" auth d a Hd Ha).
    rewrite Hr. cbn. rewrite Hx, Hs.
    destruct (negb (in_0_1 state) || mem name exclude); [reflexivity |].
    rewrite (entry_found name "default" default d Hd).
    unfold ret, after. now destruct (field "default" (default d)). }
  split.
  - intros [Hin Hex]. rewrite Hrun.
    apply H01 in Hin. now rewrite Hin, Hex.
  - intros Hn. rewrite Hrun.
    destruct (in_0_1 state) eqn:Hin; [| reflexivity].
    destruct (mem name exclude) eqn:Hex; [reflexivity |].
    exfalso. apply Hn. split; [now apply H01 | reflexivity].
Qed.

(** ** Writing *)

Lemma set_to_state_run (name : string) (d : device) (p a : string)
      (flag : Z) (value : pyval) (v : num) (w : world) :
  assoc name all_devices = Some d ->
  default d = Some flag -> pin d = Some p -> auth d = Some a ->
  process_pin value flag = Ok v ->
  set_to_state name value w =
    (match remote (sent w) (Update server a p v) with
     | Unreachable => Raise ConnectionError
     | Response _ => Ok tt
     end, after w (Update server a p v)).
Proof.
  intros Hd Hf Hp Ha Hv. unfold set_to_state, bind, lift, requests_get.
  rewrite (entry_some name "default" default d flag Hd Hf), Hv.
  rewrite (entry_some name "pin" pin d p Hd Hp).
  rewrite (entry_some name "auth" auth d a Hd Ha).
  unfold after, ret. now destruct (remote (sent w) (Update server a p v)).
Qed.

Lemma set_to_state_no_default (name : string) (d : device) (value : pyval)
      (w : world) :
  assoc name all_devices = Some d -> default d = None ->
  set_to_state name value w = (Raise (KeyError (PStr "default")), w).
Proof.
  intros Hd Hf. unfold set_to_state, bind, lift.
  rewrite (entry_found name "default" default d Hd). now rewrite Hf.
Qed.

Lemma apply_function_app (l1 l2 : list string) (func : string -> io unit)
      (w : world) :
  apply_function (l1 ++ l2) func w =
    match apply_function l1 func w with
    | (Ok _, w1) => apply_function l2 func w1
    | (Raise e, w1) => (Raise e, w1)
    end.
Proof.
  revert w. induction l1 as [| x l1 IH]; intros w; [reflexivity |].
  cbn. unfold bind. destruct (func x w) as [[[] | e] w1]; [| reflexivity].
  apply IH.
Qed.

Lemma take_action_verb (action : string) (args : list string) :
  take_action action args =
    match verb_of action with
    | Flip => apply_function args flip_state
    | Off => apply_function args (fun name => set_to_state name (PNum (Int 0)))
    | On => apply_function args (fun name => set_to_state name (PNum (Int 1)))
    | Just =>
        apply_function args (fun name => set_to_state name (PNum (Int 1))) ;;;
        off <- lift (devices_to_turn_off args keys) ;;
        apply_function off (fun name => set_to_state name (PNum (Int 0)))
    | Print => table <- print_status args ;; print (PrintStr table)
    | Status =>
        match args with
        | [name] => state <- get_state name ;; print (PrintNum state)
        | _ => status <- get_status_as_dict args ;; print (PrintDict status)
        end
    | SetValue =>
        match float_of_string action with
        | None => lift (Raise ValueError)
        | Some value =>
            apply_function args
              (fun name => set_to_state name (PNum (Float value)))
        end
    end.
Proof.
  unfold take_action, verb_of.
  repeat match goal with
         | |- context [String.eqb ?a ?b] => destruct (String.eqb a b)
         end; reflexivity.
Qed.

(** C6: when a device has default flag 1 and its read gives the logical
    state 0, [flip_state] goes on as a write of the logical value 1, and the
    request it sends carries the raw value 0. *)
Theorem flip_active_low (name : string) (d : device) (p a : string)
        (w w1 : world) :
  assoc name all_devices = Some d ->
  default d = Some 1 -> pin d = Some p -> auth d = Some a ->
  get_state name w = (Ok (Int 0), w1) ->
  flip_state name w = set_to_state name (PNum (Int 1)) w1
  /\ snd (flip_state name w) = after w1 (Update server a p (Int 0)).
Proof.
  intros Hd Hf Hp Ha Hg.
  assert (E : flip_state name w = set_to_state name (PNum (Int 1)) w1).
  { unfold flip_state, bind. now rewrite Hg. }
  split; [exact E |]. rewrite E.
  rewrite (set_to_state_run name d p a 1 (PNum (Int 1)) (Int 0) w1 Hd Hf Hp Ha).
  - reflexivity.
  - now rewrite process_pin_bit by now right.
Qed.

(** C10, as the code has it: a write to a device whose entry has no
    ["default"] raises [KeyError] before any request.  So the on, off, just
    and numeric-set actions stop at such a device with nothing sent for it.
    The flip action reads the device first: the read request is sent, and
    only an int state reaches the write and its [KeyError]; a float state
    raises [TypeError] at the exclusive or. *)
Theorem write_needs_default (name : string) (d : device) :
  assoc name all_devices = Some d -> default d = None ->
  (forall value w,
     set_to_state name value w = (Raise (KeyError (PStr "default")), w))
  /\ (forall action value before rest w w1,
        written action = Some value ->
        apply_function before (fun n => set_to_state n value) w = (Ok tt, w1) ->
        take_action action (before ++ name :: rest) w
        = (Raise (KeyError (PStr "default")), w1))
  /\ (forall w,
        flip_state name w =
          match get_state name w with
          | (Ok (Int _), w1) => (Raise (KeyError (PStr "default")), w1)
          | (Ok (Float _), w1) => (Raise TypeError, w1)
          | (Raise e, w1) => (Raise e, w1)
          end).
Proof.
  intros Hd Hf.
  assert (Hset : forall value w,
    set_to_state name value w = (Raise (KeyError (PStr "default")), w)).
  { intros value w. now apply set_to_state_no_default with (d := d). }
  assert (Hstop : forall value before rest w w1,
    apply_function before (fun n => set_to_state n value) w = (Ok tt, w1) ->
    apply_function (before ++ name :: rest) (fun n => set_to_state n value) w
    = (Raise (KeyError (PStr "default")), w1)).
  { intros value before rest w w1 Hb. rewrite apply_function_app, Hb.
    cbn. unfold bind. now rewrite Hset. }
  split; [exact Hset | split].
  - intros action value before rest w w1 Hw Hb.
    rewrite take_action_verb. unfold written in Hw.
    destruct (verb_of action); try discriminate.
    + injection Hw as <-. now apply Hstop.
    + injection Hw as <-. now apply Hstop.
    + injection Hw as <-. unfold bind. now rewrite (Hstop _ _ _ _ _ Hb).
    + destruct (float_of_string action) as [f |]; [| discriminate].
      injection Hw as <-. now apply Hstop.
  - intros w. unfold flip_state, bind.
    destruct (get_state name w) as [[[z | f] | e] w1]; cbn; try reflexivity.
    apply Hset.
Qed.

End Client.

(** ** Resolving *)

Lemma mem_In (x : string) (l : list string) : mem x l = true <-> In x l.
Proof.
  unfold mem. rewrite existsb_exists. split.
  - intros [y [Hy E]]. apply String.eqb_eq in E. now subst.
  - intros H. exists x. split; [exact H | apply String.eqb_refl].
Qed.

Lemma mem_not_In (x : string) (l : list string) :
  mem x l = false <-> ~ In x l.
Proof.
  rewrite <- mem_In. destruct (mem x l); split; congruence.
Qed.

(** The test of the resolver, [action[:1] in ("s", "p")], holds exactly for
    the tokens the dispatcher takes to the print or the status branch. *)
Lemma reads_prefix (action : string) :
  mem (prefix_of 1 action) ["s"; "p"] = reads action.
Proof.
  unfold reads, verb_of, mem, prefix_of.
  destruct action as [| c rest]; [reflexivity |].
  destruct c as [[] [] [] [] [] [] [] []]; try reflexivity;
    destruct rest as [| c' rest']; try reflexivity;
    destruct c' as [[] [] [] [] [] [] [] []]; try reflexivity;
    destruct rest'; reflexivity.
Qed.

Lemma reads_verb (action : string) :
  reads action = true <-> verb_of action = Print \/ verb_of action = Status.
Proof.
  unfold reads. destruct (verb_of action); split; intros H;
    try discriminate; auto; destruct H; discriminate.
Qed.

Section Resolver.

Context {config : Config}.

(** Whether a device passes the exclusion rule under an action token. *)
Lemma eligible_iff (action x : string) :
  negb (mem x exclude) || reads action = true <->
  ~ In x exclude \/ verb_of action = Print \/ verb_of action = Status.
Proof.
  rewrite orb_true_iff, negb_true_iff, mem_not_In, reads_verb. tauto.
Qed.

Lemma get_group_entry (x g : string) :
  get_group x = Some g <->
  exists d, assoc x all_devices = Some d /\ group d = Some g.
Proof.
  unfold get_group. destruct (assoc x all_devices) as [d |].
  - split; [intros H; now exists d | now intros [d' [[= <-] H]]].
  - split; [discriminate | now intros [d' [H _]]].
Qed.

Lemma eq_opt_iff (token : string) (g : option string) :
  eq_opt token g = true <-> g = Some token.
Proof.
  destruct g as [s |]; cbn; [| split; discriminate].
  rewrite String.eqb_eq. split; [now intros -> | now intros [= ->]].
Qed.

(** C3: when the first token is ["all"] or ["a"], the resolver returns the
    names of the table, in its order, without the excluded ones unless the
    action token selects print or status; the tokens after the first play
    no part. *)
Theorem choose_devices_wildcard (action first : string) (rest : list string) :
  first = "all" \/ first = "a" ->
  let chosen := filter (fun x => negb (mem x exclude) || reads action) keys in
  choose_devices action (first :: rest) = Ok chosen
  /\ choose_devices action (first :: rest) = choose_devices action [first]
  /\ forall x,
       In x chosen <->
       In x keys /\
       (~ In x exclude \/ verb_of action = Print \/ verb_of action = Status).
Proof.
  intros Hf chosen.
  assert (Hm : mem first ["all"; "a"] = true).
  { apply mem_In. destruct Hf as [-> | ->]; cbn; auto. }
  assert (E : forall l, choose_devices action (first :: l) = Ok chosen).
  { intros l. unfold choose_devices. rewrite Hm. unfold chosen.
    f_equal. apply filter_ext. intros x. now rewrite reads_prefix. }
  split; [apply E | split].
  - now rewrite !E.
  - intros x. unfold chosen. rewrite filter_In. now rewrite eligible_iff.
Qed.

(** C5: when the first token is a name of [groups] (and not a wildcard),
    the resolver returns the names of the table whose entry has that group,
    in the order of the table, without the excluded ones unless the action
    token selects print or status. *)
Theorem choose_devices_group (action first : string) (rest : list string) :
  In first groups -> first <> "all" -> first <> "a" ->
  let chosen :=
    filter (fun x => eq_opt first (get_group x)
                     && (negb (mem x exclude) || reads action)) keys in
  choose_devices action (first :: rest) = Ok chosen
  /\ forall x,
       In x chosen <->
       In x keys /\
       (exists d, assoc x all_devices = Some d /\ group d = Some first) /\
       (~ In x exclude \/ verb_of action = Print \/ verb_of action = Status).
Proof.
  intros Hg Hall Ha chosen.
  assert (Hm : mem first ["all"; "a"] = false).
  { apply mem_not_In. cbn. intros [E | [E | []]]; congruence. }
  split.
  - unfold choose_devices. rewrite Hm.
    apply mem_In in Hg. rewrite Hg. unfold chosen.
    f_equal. apply filter_ext. intros x. now rewrite reads_prefix.
  - intros x. unfold chosen.
    rewrite filter_In, andb_true_iff, eligible_iff, eq_opt_iff.
    now rewrite get_group_entry.
Qed.

End Resolver.

Lemma choose_devices_wildcard_witness :
  choose_devices (config := blynk) "off" ["all"; "kitchen"]
  = Ok ["bedroom_light"; "kitchen_light"].
Proof.
  exact (proj1 (choose_devices_wildcard (config := blynk) "off" "all"
                  ["kitchen"] (or_introl eq_refl))).
Defined.

Lemma choose_devices_group_witness :
  choose_devices (config := blynk) "status" ["kitchen"; "bedroom"]
  = Ok ["kitchen_light"].
Proof.
  refine (proj1 (choose_devices_group (config := blynk) "status" "kitchen"
                   ["bedroom"] _ _ _)).
  - right; left; reflexivity.
  - discriminate.
  - discriminate.
Defined.

Section Dispatcher.

Context {builtins : Builtins} {config : Config} {network : Network}.

(** ** An action token that is no action *)

(** The resolver returns on every token list that is not empty. *)
Lemma choose_devices_total (action : string) (args : list string) :
  args <> [] -> exists devices, choose_devices action args = Ok devices.
Proof.
  intros Hne. destruct args as [| first rest]; [contradiction |].
  unfold choose_devices.
  destruct (mem first ["all"; "a"]); [eexists; reflexivity |].
  destruct (mem first groups); eexists; reflexivity.
Qed.

(** C9: an action token that selects none of the six named branches and
    that [float] does not parse makes the dispatcher raise [ValueError] with
    no request sent and nothing printed, and so does the whole script on a
    command line that ends with it. *)
Theorem unparseable_action_fails (action : string) :
  verb_of action = SetValue -> float_of_string action = None ->
  (forall args w, take_action action args w = (Raise ValueError, w))
  /\ (forall prog first rest w,
        main (prog :: first :: rest ++ [action]) w = (Raise ValueError, w)).
Proof.
  intros Hv Hf.
  assert (Ht : forall args w,
             take_action action args w = (Raise ValueError, w)).
  { intros args w. rewrite take_action_verb, Hv, Hf. reflexivity. }
  split; [exact Ht |].
  intros prog first rest w. unfold main.
  replace (List.length (prog :: first :: rest ++ [action]) <? 3)%nat with false
    by (symmetry; apply Nat.ltb_ge; cbn; rewrite length_app; cbn; lia).
  cbn [tl].
  change (first :: rest ++ [action])%list
    with ((first :: rest) ++ [action])%list.
  rewrite last_last, removelast_last.
  destruct (choose_devices_total action (first :: rest)) as [devices Hc];
    [discriminate |].
  unfold bind, lift. rewrite Hc. apply Ht.
Qed.

(** ** The just action *)

Lemma complete_group (name : string) :
  complete name -> exists g, entry name "group" group = Ok g
                             /\ get_group name = Some g.
Proof.
  intros (d & p & a & flag & g & Hd & _ & _ & _ & Hg). exists g. split.
  - now apply entry_some with (d := d).
  - unfold get_group. now rewrite Hd.
Qed.

Lemma groups_of_complete (args : list string) :
  (forall name, In name args -> complete name) ->
  exists gs, groups_of args = Ok gs
             /\ forall g, mem g gs = true <->
                          exists a, In a args /\ get_group a = Some g.
Proof.
  induction args as [| a args IH]; intros Hc.
  - exists []. split; [reflexivity |]. intros g. cbn.
    split; [discriminate | now intros [a [[] _]]].
  - destruct (complete_group a (Hc a (or_introl eq_refl))) as [g0 [He Hg]].
    destruct IH as [gs [Hgs Hmem]].
    { intros name Hn. apply Hc. now right. }
    exists (g0 :: gs). split.
    + cbn. rewrite He. cbn. now rewrite Hgs.
    + intros g. unfold mem in *. cbn [existsb]. rewrite orb_true_iff, Hmem.
      rewrite String.eqb_eq. split.
      * intros [-> | [b [Hb Hgb]]]; [exists a | exists b]; cbn; auto.
      * intros [b [[<- | Hb] Hgb]]; [left; congruence | right; now exists b].
Qed.

Lemma shares_group_iff (args : list string) (name g : string) :
  get_group name = Some g ->
  shares_group args name = true <->
  exists a, In a args /\ get_group a = Some g.
Proof.
  intros Hg. unfold shares_group. rewrite existsb_exists. rewrite Hg.
  split; intros [a [Ha H]]; exists a; (split; [exact Ha |]).
  - destruct (get_group a) as [ga |]; [| discriminate].
    cbn in H. apply String.eqb_eq in H. now subst.
  - rewrite H. cbn. apply String.eqb_refl.
Qed.

Lemma devices_to_turn_off_complete (args names : list string) :
  (forall name, In name args -> complete name) ->
  (forall name, In name names -> ~ In name exclude -> complete name) ->
  devices_to_turn_off args names = Ok (filter (others args) names).
Proof.
  intros Ha. induction names as [| name names IH]; intros Hn; [reflexivity |].
  cbn [devices_to_turn_off filter]. rewrite IH
    by (intros x Hx; apply Hn; now right).
  destruct (mem name exclude) eqn:Hex.
  - replace (others args name) with false
      by (unfold others; now rewrite Hex).
    reflexivity.
  - destruct (complete_group name) as [g [He Hg]].
    { apply Hn; [now left | now apply mem_not_In]. }
    destruct (groups_of_complete args Ha) as [gs [Hgs Hmem]].
    replace (others args name) with (mem g gs && negb (mem name args)).
    + cbn. rewrite He. cbn. rewrite Hgs. reflexivity.
    + unfold others. rewrite Hex. cbn. f_equal.
      apply eq_true_iff_eq. rewrite Hmem. symmetry.
      now apply shares_group_iff.
Qed.

Lemma apply_writes (v : Z) (l : list string) (w : world) :
  v = 0 \/ v = 1 ->
  (forall h r, remote h r <> Unreachable) ->
  (forall name, In name l -> complete name) ->
  exists reqs,
    apply_function l (fun name => set_to_state name (PNum (Int v))) w
    = (Ok tt, {| sent := sent w ++ reqs; stdout := stdout w |})
    /\ Forall2 (writes_to v) l reqs.
Proof.
  intros Hv Hnet. revert w. induction l as [| name l IH]; intros w Hc.
  - exists []. split; [| constructor]. cbn. unfold ret.
    rewrite app_nil_r. now destruct w.
  - destruct (Hc name (or_introl eq_refl))
      as (d & p & a & flag & g & Hd & Hp & Ha & Hf & _).
    set (r := Update server a p (Int (Z.lxor v flag))).
    destruct (IH (after w r)) as [reqs [Hrun Hall]].
    { intros x Hx. apply Hc. now right. }
    exists (r :: reqs). split.
    + cbn [apply_function]. unfold bind.
      rewrite (set_to_state_run name d p a flag (PNum (Int v))
                 (Int (Z.lxor v flag)) w Hd Hf Hp Ha
                 (process_pin_bit v flag Hv)).
      fold r. destruct (remote (sent w) r) eqn:Hr; [now apply Hnet in Hr |].
      rewrite Hrun. cbn. now rewrite <- app_assoc.
    + constructor; [| exact Hall]. now exists d, p, a, flag.
Qed.

(** C4: with complete entries for the arguments and for every device that
    is not excluded, and a service that answers, the just action sends one
    write of the logical value 1 per argument, in order, then one write of
    the logical value 0 per device of the table that is not excluded, not an
    argument, and in the group of some argument; it sends nothing else. *)
Theorem just_writes (action : string) (args : list string) (w : world) :
  verb_of action = Just ->
  (forall name, In name args -> complete name) ->
  (forall name, In name keys -> ~ In name exclude -> complete name) ->
  (forall h r, remote h r <> Unreachable) ->
  exists ons offs,
    take_action action args w
    = (Ok tt, {| sent := sent w ++ ons ++ offs; stdout := stdout w |})
    /\ Forall2 (writes_to 1) args ons
    /\ Forall2 (writes_to 0) (filter (others args) keys) offs
    /\ forall name,
         In name (filter (others args) keys) <->
         In name keys /\ ~ In name exclude /\ ~ In name args
         /\ exists a g, In a args /\ get_group a = Some g
                        /\ get_group name = Some g.
Proof.
  intros Hv Ha Hk Hnet.
  destruct (apply_writes 1 args w (or_intror eq_refl) Hnet Ha)
    as [ons [Hon Hons]].
  set (w1 := {| sent := sent w ++ ons; stdout := stdout w |}) in *.
  destruct (apply_writes 0 (filter (others args) keys) w1
              (or_introl eq_refl) Hnet) as [offs [Hoff Hoffs]].
  { intros name Hn. apply filter_In in Hn. destruct Hn as [Hin Ho].
    apply Hk; [exact Hin |]. unfold others in Ho.
    apply andb_true_iff in Ho. destruct Ho as [Ho _].
    apply andb_true_iff in Ho. destruct Ho as [Ho _].
    apply negb_true_iff in Ho. now apply mem_not_In. }
  exists ons, offs.
  split; [| split; [exact Hons | split; [exact Hoffs | intros name; split]]].
  - rewrite take_action_verb, Hv. unfold bind at 1. rewrite Hon.
    unfold bind, lift.
    rewrite (devices_to_turn_off_complete args keys Ha Hk), Hoff.
    cbn. now rewrite app_assoc.
  - intros Hn. apply filter_In in Hn. destruct Hn as [Hin Ho].
    unfold others in Ho. rewrite !andb_true_iff, !negb_true_iff in Ho.
    destruct Ho as [[Hex Hs] Hna]. apply mem_not_In in Hex, Hna.
    repeat split; try assumption.
    destruct (complete_group name (Hk name Hin Hex)) as [g [_ Hg]].
    apply (shares_group_iff args name g Hg) in Hs.
    destruct Hs as [a [Hain Hag]]. now exists a, g.
  - intros (Hin & Hex & Hna & a & g & Hain & Hag & Hg).
    apply filter_In. split; [exact Hin |]. unfold others.
    rewrite !andb_true_iff, !negb_true_iff. repeat split.
    + now apply mem_not_In.
    + apply (shares_group_iff args name g Hg). now exists a.
    + now apply mem_not_In.
Qed.


(** ** Rendering the table *)

Lemma sapp_assoc (a b c : string) : ((a ++ b) ++ c = a ++ b ++ c)%string.
Proof. induction a as [| x a IH]; cbn; [reflexivity | now rewrite IH]. Qed.

Lemma sapp_nil_r (a : string) : (a ++ "" = a)%string.
Proof. induction a as [| x a IH]; cbn; [reflexivity | now rewrite IH]. Qed.

Lemma sapp_length (a b : string) :
  String.length (a ++ b) = (String.length a + String.length b)%nat.
Proof. induction a as [| x a IH]; cbn; [reflexivity | now rewrite IH]. Qed.

Lemma spaces_length (n : nat) : String.length (spaces n) = n.
Proof. induction n as [| n IH]; cbn; [reflexivity | now rewrite IH]. Qed.

Lemma ljust_length (s : string) (w : nat) :
  String.length (ljust s w) = Nat.max (String.length s) w.
Proof. unfold ljust. rewrite sapp_length, spaces_length. lia. Qed.

Lemma substring_prefix (a b : string) :
  substring 0 (String.length a) (a ++ b) = a.
Proof.
  induction a as [| x a IH]; cbn; [now destruct b | now rewrite IH].
Qed.

Lemma drop_last_nl (a : string) : drop_last (a ++ nl) = a.
Proof.
  unfold drop_last. rewrite sapp_length. cbn [String.length nl].
  replace (String.length a + 1 - 1)%nat with (String.length a) by lia.
  apply substring_prefix.
Qed.

(** The loop of [print_status] appends each row and a newline to the
    table. *)
Lemma fold_add_row (width : nat) (l : list (string * num)) (table : string) :
  l <> [] ->
  fold_left (add_row width) l table
  = (table ++ String.concat nl (map (row width) l) ++ nl)%string.
Proof.
  revert table. induction l as [| item l IH]; intros table Hne;
    [contradiction |].
  destruct l as [| item' l'].
  - cbn. unfold add_row, row. now rewrite !sapp_assoc.
  - change (fold_left (add_row width) (item :: item' :: l') table)
      with (fold_left (add_row width) (item' :: l') (add_row width table item)).
    rewrite IH by discriminate.
    change (String.concat nl (map (row width) (item :: item' :: l')))
      with (row width item ++ nl
            ++ String.concat nl (map (row width) (item' :: l')))%string.
    unfold add_row, row. now rewrite !sapp_assoc.
Qed.

Lemma longest_bound (l : list (string * num)) (item : string * num) :
  In item l -> (String.length (fst item) <= longest l)%nat.
Proof.
  induction l as [| x l IH]; [contradiction |].
  change (longest (x :: l))
    with (Nat.max (String.length (fst x)) (longest l)).
  intros [-> | H]; [lia | specialize (IH H); lia].
Qed.

Lemma longest_reached (l : list (string * num)) :
  l <> [] -> exists item, In item l /\ String.length (fst item) = longest l.
Proof.
  induction l as [| x l IH]; intros Hne; [contradiction |].
  destruct l as [| y l'].
  - exists x. split; [now left | unfold longest; cbn [fold_right]; lia].
  - destruct IH as [item [Hin Hlen]]; [discriminate |].
    change (longest (x :: y :: l'))
      with (Nat.max (String.length (fst x)) (longest (y :: l'))).
    destruct (Nat.max_spec (String.length (fst x)) (longest (y :: l')))
      as [[_ ->] | [_ ->]].
    + exists item. split; [now right | exact Hlen].
    + exists x. split; [now left | reflexivity].
Qed.

Lemma concat_rows_end (width : nat) (l : list (string * num)) :
  l <> [] ->
  exists body, String.concat nl (map (row width) l) = (body ++ " ")%string.
Proof.
  induction l as [| item l IH]; intros Hne; [contradiction |].
  destruct l as [| item' l'].
  - cbn. unfold row.
    exists (ljust (fst item) width ++ ": "
            ++ ljust (str_of_num (snd item)) 3)%string.
    now rewrite !sapp_assoc.
  - destruct IH as [body Hb]; [discriminate |].
    cbn [map String.concat] in *.
    exists (row width item ++ nl ++ body)%string.
    rewrite Hb. now rewrite !sapp_assoc.
Qed.

(** [print_status] renders what [get_status_as_dict] returns. *)
Lemma print_status_render (devices : list string) (w : world) :
  print_status devices w =
    match get_status_as_dict devices w with
    | (Ok status_dict, w1) => (render status_dict, w1)
    | (Raise e, w1) => (Raise e, w1)
    end.
Proof. reflexivity. Qed.

(** C8: the table of a non-empty mapping is its rows, one per device in
    order, joined by newlines.  A row is the name padded on the right to the
    length of the longest name plus one, a colon and a space, the state
    padded on the right to width 3, and a space; so the table ends with a
    space, not with a newline. *)
Theorem render_table (status_dict : list (string * num)) :
  status_dict <> [] ->
  let width := (longest status_dict + 1)%nat in
  render status_dict = Ok (String.concat nl (map (row width) status_dict))
  /\ (forall item, In item status_dict ->
        String.length (ljust (fst item) width) = width)
  /\ (exists item, In item status_dict
                   /\ width = (String.length (fst item) + 1)%nat)
  /\ (forall state, String.length (ljust (str_of_num state) 3)
                    = Nat.max (String.length (str_of_num state)) 3)
  /\ exists body,
       String.concat nl (map (row width) status_dict) = (body ++ " ")%string.
Proof.
  intros Hne width. repeat split.
  - unfold render, max_key_len. destruct status_dict as [| item l];
      [contradiction |].
    fold (longest (item :: l)). fold width.
    rewrite fold_add_row by discriminate. cbn [append].
    now rewrite drop_last_nl.
  - intros item Hin. rewrite ljust_length.
    pose proof (longest_bound status_dict item Hin). unfold width. lia.
  - destruct (longest_reached status_dict Hne) as [item [Hin Hlen]].
    exists item. split; [exact Hin | unfold width; lia].
  - intros state. apply ljust_length.
  - now apply concat_rows_end.
Qed.

(** ** The status action *)

Lemma get_state_stdout (name : string) (w : world) :
  stdout (snd (get_state name w)) = stdout w.
Proof.
  unfold get_state, bind, lift, requests_get, ret.
  repeat match goal with
         | |- context [match ?x with _ => _ end] =>
             lazymatch x with
             | context [match _ with _ => _ end] => fail
             | _ => destruct x
             end
         end; reflexivity.
Qed.

Lemma dict_set_keys (status : list (string * num)) (name : string)
      (state : num) (x : string) :
  In x (map fst (dict_set status name state)) <->
  x = name \/ In x (map fst status).
Proof.
  induction status as [| [k v] status IH]; cbn.
  - intuition congruence.
  - destruct (String.eqb_spec name k) as [-> | Hne]; cbn.
    + intuition congruence.
    + rewrite IH. tauto.
Qed.

Lemma dict_set_NoDup (status : list (string * num)) (name : string)
      (state : num) :
  NoDup (map fst status) -> NoDup (map fst (dict_set status name state)).
Proof.
  induction status as [| [k v] status IH]; cbn; intros Hnd.
  - constructor; [intros [] | constructor].
  - destruct (String.eqb_spec name k) as [-> | Hne]; cbn; [exact Hnd |].
    inversion Hnd as [| ? ? Hk Hrest]; subst. constructor.
    + rewrite dict_set_keys. intros [E | Hin]; [congruence | contradiction].
    + now apply IH.
Qed.

Lemma assoc_dict_set (status : list (string * num)) (name : string)
      (state : num) (x : string) :
  assoc x (dict_set status name state)
  = if String.eqb x name then Some state else assoc x status.
Proof.
  induction status as [| [k v] status IH]; cbn; [reflexivity |].
  destruct (String.eqb_spec name k) as [-> | Hne]; cbn.
  - now destruct (String.eqb x k).
  - rewrite IH. destruct (String.eqb_spec x k) as [-> | Hxk];
      [| reflexivity].
    destruct (String.eqb_spec k name) as [E | _]; [congruence | reflexivity].
Qed.

Lemma assoc_app (l1 l2 : list (string * num)) (x : string) :
  assoc x (l1 ++ l2)
  = match assoc x l1 with
    | Some v => Some v
    | None => assoc x l2
    end.
Proof.
  induction l1 as [| [k v] l1 IH]; cbn; [reflexivity |].
  now destruct (String.eqb x k).
Qed.

Lemma get_status_loop_run (devices : list string)
      (status : list (string * num)) (w : world) :
  (forall name, In name devices -> readable name) ->
  exists d w1,
    get_status_loop devices status w = (Ok d, w1)
    /\ stdout w1 = stdout w
    /\ (NoDup (map fst status) -> NoDup (map fst d))
    /\ (forall x, In x (map fst d) <-> In x (map fst status) \/ In x devices)
    /\ exists states,
         read_all devices w = (Ok states, w1)
         /\ forall x,
              assoc x d
              = match assoc x (rev (combine devices states)) with
                | Some state => Some state
                | None => assoc x status
                end.
Proof.
  revert status w. induction devices as [| name devices IH];
    intros status w Hr.
  - exists status, w. cbn. unfold ret.
    repeat split; try tauto. now exists [].
  - destruct (Hr name (or_introl eq_refl) w) as (state & w0 & Hg).
    destruct (IH (dict_set status name state) w0)
      as (d & w1 & Hrun & Hout & Hnd & Hk & states & Hall & Hval).
    { intros x Hx. apply Hr. now right. }
    exists d, w1. split; [| split; [| split; [| split]]].
    + cbn [get_status_loop]. unfold bind. now rewrite Hg.
    + rewrite Hout. pose proof (get_state_stdout name w) as Hs.
      now rewrite Hg in Hs.
    + intros H. now apply Hnd, dict_set_NoDup.
    + intros x. rewrite Hk, dict_set_keys. cbn. intuition.
    + exists (state :: states). split.
      * cbn [read_all]. unfold bind. rewrite Hg, Hall. reflexivity.
      * intros x. rewrite Hval. cbn [combine rev].
        rewrite assoc_app, assoc_dict_set. cbn [assoc].
        destruct (assoc x (rev (combine devices states))); [reflexivity |].
        now destruct (String.eqb x name).
Qed.

(** C7: when every resolved device can be read, the status action prints
    one object.  For exactly one device it is the state read from it; for
    any other number of devices it is a dictionary whose keys are the
    resolved devices, each once, and whose value at a device is the state
    that device gave when the devices were read one after the other, in
    order (the last of them for a device named more than once). *)
Theorem status_output (action : string) (args : list string) (w : world) :
  verb_of action = Status ->
  (forall name, In name args -> readable name) ->
  (forall name, args = [name] ->
     exists state w1,
       get_state name w = (Ok state, w1)
       /\ take_action action args w
          = (Ok tt, {| sent := sent w1;
                       stdout := stdout w ++ [PrintNum state] |}))
  /\ (List.length args <> 1%nat ->
      exists d w1,
        get_status_as_dict args w = (Ok d, w1)
        /\ take_action action args w
           = (Ok tt, {| sent := sent w1;
                        stdout := stdout w ++ [PrintDict d] |})
        /\ NoDup (map fst d)
        /\ (forall x, In x (map fst d) <-> In x args)
        /\ exists states,
             read_all args w = (Ok states, w1)
             /\ forall x,
                  assoc x d = assoc x (rev (combine args states))).
Proof.
  intros Hv Hr. split.
  - intros name ->.
    destruct (Hr name (or_introl eq_refl) w) as (state & w1 & Hg).
    exists state, w1. split; [exact Hg |].
    rewrite take_action_verb, Hv. unfold bind, print. rewrite Hg.
    pose proof (get_state_stdout name w) as Hs. rewrite Hg in Hs.
    cbn in Hs. now rewrite Hs.
  - intros Hlen.
    destruct (get_status_loop_run args [] w Hr)
      as (d & w1 & Hrun & Hout & Hnd & Hk & states & Hall & Hval).
    exists d, w1. split; [exact Hrun | split; [| split; [| split]]].
    + rewrite take_action_verb, Hv.
      assert (E : match args with
                  | [name] => state <- get_state name ;; print (PrintNum state)
                  | _ => status <- get_status_as_dict args ;;
                         print (PrintDict status)
                  end
                  = (status <- get_status_as_dict args ;;
                     print (PrintDict status))).
      { destruct args as [| a [| b l]]; try reflexivity.
        now contradiction Hlen. }
      rewrite E. unfold bind, print, get_status_as_dict.
      rewrite Hrun. now rewrite Hout.
    + apply Hnd. constructor.
    + intros x. rewrite Hk. cbn. tauto.
    + exists states. split; [exact Hall |].
      intros x. rewrite Hval. cbn [assoc].
      now destruct (assoc x (rev (combine args states))).
Qed.

End Dispatcher.


Lemma unparseable_action_fails_witness :
  main (builtins := decimal_builtins) (config := blynk)
       (network := constant_service (PStr "1"))
       ["blynk.py"; "kitchen"; "toggle"] start
  = (Raise ValueError, start).
Proof.
  refine (proj2 (unparseable_action_fails (builtins := decimal_builtins)
                   (config := blynk) (network := constant_service (PStr "1"))
                   "toggle" _ _) "blynk.py" "kitchen" [] start);
    reflexivity.
Defined.


Lemma render_table_witness :
  render (builtins := decimal_builtins) [("a", Int 1); ("bb", Int 0)]
  = Ok ("a  : 1   " ++ nl ++ "bb : 0   ")%string.
Proof.
  refine (proj1 (render_table (builtins := decimal_builtins)
                   [("a", Int 1); ("bb", Int 0)] _)).
  discriminate.
Defined.

(** ** Runs on the configuration of the source *)

Lemma blynk_complete (name : string) :
  In name (keys (config := blynk)) -> ~ In name (exclude (Config := blynk)) ->
  complete (config := blynk) name.
Proof.
  intros Hin Hex. cbn in Hin, Hex.
  destruct Hin as [<- | [<- | [<- | [<- | []]]]].
  - now exists {| pin := Some "V3"; auth := Some "<auth_token>";
                  default := Some 0; group := Some "bedroom" |},
               "V3", "<auth_token>", 0, "bedroom".
  - now exists {| pin := Some "d2"; auth := Some "<auth_token>";
                  default := Some 1; group := Some "kitchen" |},
               "d2", "<auth_token>", 1, "kitchen".
  - exfalso. apply Hex. now left.
  - exfalso. apply Hex. right. now left.
Qed.

Lemma ones_readable (name : string) :
  In name (keys (config := blynk)) ->
  readable (builtins := decimal_builtins) (config := blynk) (network := ones)
           name.
Proof.
  intros Hin w. cbn in Hin.
  destruct Hin as [<- | [<- | [<- | [<- | []]]]]; eexists; eexists;
    reflexivity.
Qed.

Lemma get_state_inverts_iff_witness :
  get_state (builtins := decimal_builtins) (config := blynk) (network := ones)
            "kitchen_light" start
  = (Ok (Int 0),
     after start (Get "http://blynk-cloud.com" "<auth_token>" "d2")).
Proof.
  refine (proj1 (get_state_inverts_iff
                   (builtins := decimal_builtins) (config := blynk)
                   (network := ones) "kitchen_light"
                   {| pin := Some "d2"; auth := Some "<auth_token>";
                      default := Some 1; group := Some "kitchen" |}
                   "d2" "<auth_token>" start (PList [PStr "1"]) (PStr "1")
                   (Int 1) _ _ _ _ _ _) _);
    try reflexivity.
  split; [right |]; reflexivity.
Defined.

Lemma flip_active_low_witness :
  snd (flip_state (builtins := decimal_builtins) (config := blynk)
                  (network := ones) "kitchen_light" start)
  = {| sent := [Get "http://blynk-cloud.com" "<auth_token>" "d2";
                Update "http://blynk-cloud.com" "<auth_token>" "d2" (Int 0)];
       stdout := [] |}.
Proof.
  refine (proj2 (flip_active_low
                   (builtins := decimal_builtins) (config := blynk)
                   (network := ones) "kitchen_light"
                   {| pin := Some "d2"; auth := Some "<auth_token>";
                      default := Some 1; group := Some "kitchen" |}
                   "d2" "<auth_token>" start
                   (after start
                      (Get "http://blynk-cloud.com" "<auth_token>" "d2"))
                   _ _ _ _ _));
    reflexivity.
Defined.

Lemma just_writes_witness :
  exists ons offs,
    take_action (builtins := decimal_builtins) (config := blynk)
                (network := ones) "just" ["kitchen_light"] start
    = (Ok tt, {| sent := [] ++ ons ++ offs; stdout := [] |})
    /\ Forall2 (writes_to (config := blynk) 1) ["kitchen_light"] ons
    /\ Forall2 (writes_to (config := blynk) 0) [] offs.
Proof.
  destruct (just_writes (builtins := decimal_builtins) (config := blynk)
              (network := ones) "just" ["kitchen_light"] start)
    as (ons & offs & Hrun & Hon & Hoff & _).
  - reflexivity.
  - intros name [<- | []]. apply blynk_complete.
    + right. now left.
    + cbn. intros [E | [E | []]]; discriminate.
  - apply blynk_complete.
  - discriminate.
  - now exists ons, offs.
Defined.

Lemma status_output_witness :
  exists d w1,
    take_action (builtins := decimal_builtins) (config := blynk)
                (network := ones) "s" ["bedroom_light"; "temperature"] start
    = (Ok tt, {| sent := sent w1; stdout := [PrintDict d] |})
    /\ (forall x, In x (map fst d) <-> In x ["bedroom_light"; "temperature"])
    /\ assoc "bedroom_light" d = Some (Int 1)
    /\ assoc "temperature" d = Some (Int 1).
Proof.
  destruct (proj2 (status_output (builtins := decimal_builtins)
                     (config := blynk) (network := ones) "s"
                     ["bedroom_light"; "temperature"] start eq_refl
                     (fun name H =>
                        ones_readable name
                          (match H with
                           | or_introl E => or_introl E
                           | or_intror (or_introl E) =>
                               or_intror (or_intror (or_introl E))
                           | or_intror (or_intror F) => match F with end
                           end))))
    as (d & w1 & _ & Hrun & _ & Hk & states & Hall & Hval).
  - discriminate.
  - exists d, w1. split; [exact Hrun | split; [exact Hk |]].
    injection Hall as <- _. now rewrite !Hval.
Defined.

Lemma write_needs_default_witness :
  take_action (builtins := decimal_builtins) (config := blynk)
              (network := ones) "on" ["kitchen_light"; "temperature"] start
  = (Raise (KeyError (PStr "default")),
     after start (Update "http://blynk-cloud.com" "<auth_token>" "d2" (Int 0))).
Proof.
  refine (proj1 (proj2 (write_needs_default
                          (builtins := decimal_builtins) (config := blynk)
                          (network := ones) "temperature"
                          {| pin := Some "V6"; auth := Some "<auth_token>";
                             default := None; group := None |} _ _))
            "on" (PNum (Int 1)) ["kitchen_light"] [] start _ _ _);
    reflexivity.
Defined.

(** C10 as stated fails for the flip action.  The sensor ["temperature"] is
    excluded and has no ["default"]; when its reading is 21.5, flipping it
    sends the read request and raises [TypeError] at the exclusive or, not
    [KeyError]. *)
Lemma flip_sensor_type_error :
  (In "temperature" (exclude (Config := blynk))
   /\ entry (config := blynk) "temperature" "default" default
      = Raise (KeyError (PStr "default"))
   /\ verb_of "flip" = Flip)
  /\ take_action (builtins := decimal_builtins) (config := blynk)
                 (network := constant_service (PNum (Float f21_5)))
                 "flip" ["temperature"] start
     = (Raise TypeError,
        after start (Get "http://blynk-cloud.com" "<auth_token>" "V6"))
  /\ ~ exists w1,
        take_action (builtins := decimal_builtins) (config := blynk)
                    (network := constant_service (PNum (Float f21_5)))
                    "flip" ["temperature"] start
        = (Raise (KeyError (PStr "default")), w1).
Proof.
  split; [| split].
  - split; [now left | split; reflexivity].
  - reflexivity.
  - intros [w1 H]. discriminate H.
Qed.

(** The address of the write of the flip above. *)
Example flip_url :
  url (builtins := decimal_builtins)
      (Update "http://blynk-cloud.com" "<auth_token>" "d2" (Int 0))
  = "http://blynk-cloud.com/<auth_token>/update/d2?value=0".
Proof. reflexivity. Qed.

(** With fewer than two arguments the script prints its usage and sends
    nothing. *)
Example main_usage :
  main (builtins := decimal_builtins) (config := blynk) (network := ones)
       ["blynk.py"; "on"] start
  = (Ok tt, {| sent := []; stdout := [PrintStr help] |}).
Proof. reflexivity. Qed.

(** * Further properties *)

Section CodecMore.

Context {builtins : Builtins}.

Lemma process_pin_fractional_aux (value : pyval) (f : float) (d : Z) :
  to_float value = Ok f -> is_integer f = false ->
  process_pin value d = Ok (Float f).
Proof.
  intros Hf Hi. unfold process_pin. now rewrite Hf, Hi.
Qed.

Lemma whole_has_int (f : float) :
  is_integer f = true -> exists i, int_of_float f = Ok i.
Proof.
  destruct f as [s | s | | s m e]; cbn; try discriminate; eauto.
Qed.

(** X1: what the codec returns, case by case.  It returns a float exactly
    when the float of the value is not whole, and then that float itself,
    whatever the default flag; it returns an int exactly when the float of
    the value is whole, and then its integer exclusive-or the flag; it
    raises exactly when the conversion to float raises. *)
Theorem process_pin_cases (value : pyval) (d : Z) :
  (forall f, process_pin value d = Ok (Float f) <->
             to_float value = Ok f /\ is_integer f = false)
  /\ (forall z, process_pin value d = Ok (Int z) <->
                exists f i, to_float value = Ok f /\ is_integer f = true
                            /\ int_of_float f = Ok i /\ z = Z.lxor i d)
  /\ (forall e, process_pin value d = Raise e <-> to_float value = Raise e).
Proof.
  unfold process_pin. destruct (to_float value) as [g | e0].
  - destruct (is_integer g) eqn:Hg.
    + destruct (whole_has_int g Hg) as [i Hi]. rewrite Hi.
      split; [| split].
      * intros f. split; [discriminate | intros [[= <-] H]; congruence].
      * intros z. split.
        -- intros [= <-]. now exists g, i.
        -- intros (f & i' & [= <-] & _ & Hi' & ->). congruence.
      * intros e. split; discriminate.
    + split; [| split].
      * intros f. split; [intros [= <-]; now split | now intros [[= <-] _]].
      * intros z. split; [discriminate |].
        intros (f & i & [= <-] & H & _). congruence.
      * intros e. split; discriminate.
  - split; [| split].
    + intros f. split; [discriminate | now intros [H _]].
    + intros z. split; [discriminate | now intros (f & i & H & _)].
    + intros e. split; intros [= <-]; reflexivity.
Qed.

End CodecMore.

Section ClientMore.

Context {builtins : Builtins} {config : Config} {network : Network}.

(** [get_state] on an entry with a pin and a token: one request, then the
    decoding of the reply. *)
Lemma get_state_run (name : string) (d : device) (p a : string) (w : world) :
  assoc name all_devices = Some d -> pin d = Some p -> auth d = Some a ->
  get_state name w =
    (match remote (sent w) (Get server a p) with
     | Unreachable => Raise ConnectionError
     | Response body => decode name body
     end, after w (Get server a p)).
Proof.
  intros Hd Hp Ha. unfold get_state, bind, lift, requests_get, decode.
  rewrite (entry_some name "pin" pin d p Hd Hp).
  rewrite (entry_some name "auth" auth d a Hd Ha).
  unfold after. destruct (remote (sent w) (Get server a p)) as [| body];
    [reflexivity |].
  destruct (json body) as [j | e]; [| reflexivity]. cbn.
  destruct (subscript0 j) as [x | e]; [| reflexivity]. cbn.
  destruct (process_pin x 0) as [state | e]; [| reflexivity]. cbn.
  destruct (negb (in_0_1 state) || mem name exclude); [reflexivity |].
  destruct (entry name "default" default) as [flag | e]; reflexivity.
Qed.

(** X2: a device that is not in the table makes a read, a write and a flip
    raise [KeyError] on its name before any request, and so does the whole
    script when the name comes first on the command line, is neither a
    wildcard nor a group, and the action token is an action. *)
Theorem unknown_device_fails (name : string) :
  assoc name all_devices = None ->
  (forall w, get_state name w = (Raise (KeyError (PStr name)), w))
  /\ (forall value w,
        set_to_state name value w = (Raise (KeyError (PStr name)), w))
  /\ (forall w, flip_state name w = (Raise (KeyError (PStr name)), w))
  /\ (forall action prog rest w,
        mem name ["all"; "a"] = false -> mem name groups = false ->
        verb_of action <> SetValue \/ float_of_string action <> None ->
        main (prog :: name :: rest ++ [action]) w
        = (Raise (KeyError (PStr name)), w)).
Proof.
  intros Hn.
  assert (He : forall A key (get : device -> option A),
             entry name key get = Raise (KeyError (PStr name))).
  { intros A key get. unfold entry, lookup. now rewrite Hn. }
  assert (Hg : forall w, get_state name w = (Raise (KeyError (PStr name)), w)).
  { intros w. unfold get_state, bind, lift. now rewrite He. }
  assert (Hs : forall value w,
             set_to_state name value w = (Raise (KeyError (PStr name)), w)).
  { intros value w. unfold set_to_state, bind, lift. now rewrite He. }
  assert (Hf : forall w, flip_state name w = (Raise (KeyError (PStr name)), w)).
  { intros w. unfold flip_state, bind. now rewrite Hg. }
  split; [exact Hg | split; [exact Hs | split; [exact Hf |]]].
  intros action prog rest w Hw Hgr Hact. unfold main.
  replace (List.length (prog :: name :: rest ++ [action]) <? 3)%nat with false
    by (symmetry; apply Nat.ltb_ge; cbn; rewrite length_app; cbn; lia).
  cbn [tl].
  change (name :: rest ++ [action])%list
    with ((name :: rest) ++ [action])%list.
  rewrite last_last, removelast_last.
  unfold bind, lift, choose_devices. rewrite Hw, Hgr.
  rewrite take_action_verb.
  destruct (verb_of action) eqn:Hv; cbn [apply_function]; unfold bind;
    rewrite ?Hf, ?Hs; try reflexivity.
  - unfold print_status, get_status_as_dict. cbn [get_status_loop].
    unfold bind. now rewrite Hg.
  - destruct rest as [| b rest'].
    + unfold bind. now rewrite Hg.
    + unfold get_status_as_dict. cbn [get_status_loop].
      unfold bind. now rewrite Hg.
  - destruct (float_of_string action) as [f |].
    + cbn [apply_function]. unfold bind. now rewrite Hs.
    + destruct Hact as [Hact | Hact]; now contradiction Hact.
Qed.

(** X3: a read of an entry with a pin and a token sends exactly one read
    request whatever comes back, and what comes back wrong raises: no answer
    [ConnectionError], a body that is no JSON [JSONDecodeError], an empty
    array [IndexError], a first element of no numeric type [TypeError]. *)
Theorem get_state_bad_reply (name : string) (d : device) (p a : string)
        (w : world) :
  assoc name all_devices = Some d -> pin d = Some p -> auth d = Some a ->
  snd (get_state name w) = after w (Get server a p)
  /\ (remote (sent w) (Get server a p) = Unreachable ->
      fst (get_state name w) = Raise ConnectionError)
  /\ (remote (sent w) (Get server a p) = Response None ->
      fst (get_state name w) = Raise JSONDecodeError)
  /\ (remote (sent w) (Get server a p) = Response (Some (PList [])) ->
      fst (get_state name w) = Raise IndexError)
  /\ (forall rest,
        remote (sent w) (Get server a p)
        = Response (Some (PList (PNone :: rest))) ->
        fst (get_state name w) = Raise TypeError).
Proof.
  intros Hd Hp Ha. rewrite (get_state_run name d p a w Hd Hp Ha).
  split; [reflexivity |].
  split; [| split; [| split; [| intros rest]]]; intros ->; reflexivity.
Qed.

End ClientMore.

(** ** What an action sends *)

Lemma extends_refl (P : request -> bool) (n : nat) (w : world) :
  extends P n w w.
Proof.
  exists []. rewrite app_nil_r. repeat split; cbn; lia.
Qed.

Lemma extends_after (P : request -> bool) (n : nat) (w : world)
      (r : request) :
  P r = true -> extends P (S n) w (after w r).
Proof.
  intros Hr. exists [r]. cbn. rewrite Hr. repeat split; lia.
Qed.

Lemma extends_trans (P : request -> bool) (n m : nat) (w w1 w2 : world) :
  extends P n w w1 -> extends P m w1 w2 -> extends P (n + m) w w2.
Proof.
  intros (r1 & Hs1 & Hp1 & Hl1 & Ho1) (r2 & Hs2 & Hp2 & Hl2 & Ho2).
  exists (r1 ++ r2)%list. repeat split.
  - now rewrite Hs2, Hs1, app_assoc.
  - now rewrite forallb_app, Hp1, Hp2.
  - rewrite length_app. lia.
  - congruence.
Qed.

Lemma extends_weaken (P : request -> bool) (n m : nat) (w w1 : world) :
  (n <= m)%nat -> extends P n w w1 -> extends P m w w1.
Proof.
  intros Hle (r & Hs & Hp & Hl & Ho). exists r. repeat split; auto; lia.
Qed.

Section Footprint.

Context {builtins : Builtins} {config : Config} {network : Network}.

Lemma get_state_footprint (name : string) (w : world) :
  extends is_get 1 w (snd (get_state name w)).
Proof.
  unfold get_state, bind, lift.
  destruct (entry name "pin" pin) as [p | e]; [| apply extends_refl].
  destruct (entry name "auth" auth) as [a | e]; [| apply extends_refl].
  match goal with
  | |- extends _ _ _ (snd ?c) =>
      assert (E : snd c = after w (Get server a p))
  end.
  { unfold requests_get, ret, after.
    repeat match goal with
           | |- context [match ?x with _ => _ end] =>
               lazymatch x with
               | context [match _ with _ => _ end] => fail
               | _ => destruct x
               end
           end; reflexivity. }
  rewrite E. now apply extends_after.
Qed.

Lemma set_to_state_footprint (name : string) (value : pyval) (w : world) :
  extends is_update 1 w (snd (set_to_state name value w)).
Proof.
  unfold set_to_state, bind, lift.
  destruct (entry name "default" default) as [flag | e];
    [| apply extends_refl].
  destruct (process_pin value flag) as [v | e]; [| apply extends_refl].
  destruct (entry name "pin" pin) as [p | e]; [| apply extends_refl].
  destruct (entry name "auth" auth) as [a | e]; [| apply extends_refl].
  unfold requests_get, ret.
  destruct (remote (sent w) (Update server a p v));
    now apply (extends_after is_update 0 w (Update server a p v)).
Qed.

Lemma apply_function_extends (P : request -> bool) (l : list string)
      (func : string -> io unit) (w : world) :
  (forall x w0, extends P 1 w0 (snd (func x w0))) ->
  extends P (List.length l) w (snd (apply_function l func w)).
Proof.
  intros Hf. revert w. induction l as [| x l IH]; intros w.
  - apply extends_refl.
  - cbn [apply_function List.length]. unfold bind.
    pose proof (Hf x w) as Hx.
    destruct (func x w) as [[[] | e] w1]; cbn [snd] in *.
    + change (S (List.length l)) with (1 + List.length l)%nat.
      now apply extends_trans with (w1 := w1).
    + apply extends_weaken with (n := 1%nat); [lia | exact Hx].
Qed.

Lemma get_status_loop_extends (devices : list string)
      (status : list (string * num)) (w : world) :
  extends is_get (List.length devices) w
          (snd (get_status_loop devices status w)).
Proof.
  revert status w. induction devices as [| x l IH]; intros status w.
  - apply extends_refl.
  - cbn [get_status_loop List.length]. unfold bind.
    pose proof (get_state_footprint x w) as Hx.
    destruct (get_state x w) as [[state | e] w1]; cbn [snd] in *.
    + change (S (List.length l)) with (1 + List.length l)%nat.
      now apply extends_trans with (w1 := w1).
    + apply extends_weaken with (n := 1%nat); [lia | exact Hx].
Qed.

(** X4: the print and the status action never write: whatever the table,
    the devices and the service, the requests they add are reads, at most
    one per resolved device. *)
Theorem reads_never_write (action : string) (args : list string) (w : world) :
  verb_of action = Print \/ verb_of action = Status ->
  exists reqs,
    sent (snd (take_action action args w)) = (sent w ++ reqs)%list
    /\ forallb is_get reqs = true
    /\ (List.length reqs <= List.length args)%nat.
Proof.
  intros Hv.
  assert (Hloop : forall k : list (string * num) -> io unit,
    (forall d w0, sent (snd (k d w0)) = sent w0) ->
    exists reqs,
      sent (snd ((status <- get_status_as_dict args ;; k status) w))
      = (sent w ++ reqs)%list
      /\ forallb is_get reqs = true
      /\ (List.length reqs <= List.length args)%nat).
  { intros k Hk. unfold bind, get_status_as_dict.
    destruct (get_status_loop_extends args [] w) as (reqs & Hs & Hp & Hl & _).
    exists reqs. split; [| now split].
    destruct (get_status_loop args [] w) as [[d | e] w1]; cbn [snd] in *.
    - now rewrite Hk.
    - exact Hs. }
  rewrite take_action_verb. destruct Hv as [-> | ->].
  - unfold print_status.
    destruct (Hloop (fun d => table <- lift (render d) ;;
                              print (PrintStr table))) as [reqs H].
    { intros d w0. unfold bind, lift, print. now destruct (render d). }
    exists reqs. revert H. unfold bind. 
    destruct (get_status_as_dict args w) as [[d | e] w1]; [| trivial].
    unfold lift. now destruct (render d).
  - destruct args as [| name [| b l]].
    + now apply Hloop.
    + destruct (get_state_footprint name w) as (reqs & Hs & Hp & Hl & _).
      exists reqs. split; [| now split]. unfold bind, print.
      now destruct (get_state name w) as [[state | e] w1].
    + now apply Hloop.
Qed.

Lemma devices_to_turn_off_length (args names off : list string) :
  devices_to_turn_off args names = Ok off ->
  (List.length off <= List.length names)%nat.
Proof.
  revert off. induction names as [| x names IH]; intros off H.
  - injection H as <-. cbn. lia.
  - cbn [devices_to_turn_off] in H.
    match type of H with
    | and_then ?c _ = _ => destruct c as [keep | e]; [| discriminate]
    end.
    cbn [and_then] in H.
    destruct (devices_to_turn_off args names) as [rest | e];
      [| discriminate].
    cbn [and_then] in H. injection H as <-.
    specialize (IH rest eq_refl). destruct keep; cbn; lia.
Qed.

(** X5: the on, off, just and numeric-set actions never read and print
    nothing: the requests they add are writes, at most one per resolved
    device and, for just alone, one more per device of the table. *)
Theorem writes_never_read (action : string) (value : pyval)
        (args : list string) (w : world) :
  written action = Some value ->
  extends is_update
          (match verb_of action with
           | Just => List.length args + List.length keys
           | _ => List.length args
           end) w
          (snd (take_action action args w)).
Proof.
  intros Hw.
  assert (Hap : forall v l w0,
    extends is_update (List.length l) w0
            (snd (apply_function l (fun n => set_to_state n v) w0))).
  { intros v l w0. apply apply_function_extends.
    intros x w1. apply set_to_state_footprint. }
  rewrite take_action_verb. unfold written in Hw.
  destruct (verb_of action); try discriminate; try apply Hap.
  - unfold bind at 1. pose proof (Hap (PNum (Int 1)) args w) as H1.
    destruct (apply_function args _ w) as [[[] | e] w1]; cbn [snd] in *.
    + unfold bind, lift.
      destruct (devices_to_turn_off args keys) as [off | e] eqn:Hoff.
      * apply extends_trans with (w1 := w1); [exact H1 |].
        apply extends_weaken with (n := List.length off);
          [now apply devices_to_turn_off_length with (args := args)
          | apply Hap].
      * apply extends_weaken with (n := List.length args); [lia | exact H1].
    + apply extends_weaken with (n := List.length args); [lia | exact H1].
  - destruct (float_of_string action); [apply Hap | discriminate].
Qed.

(** ** Writing, then reading *)

(** X6: for a device that is not excluded, with a default flag of 0 or 1, a
    write of the logical value 0 or 1 followed by a read gives that value
    back, when the service answers the read with the raw value written. *)
Theorem write_then_read (name : string) (d : device) (p a : string)
        (flag b : Z) (w : world) (j x : pyval) :
  assoc name all_devices = Some d ->
  pin d = Some p -> auth d = Some a -> default d = Some flag ->
  b = 0 \/ b = 1 -> flag = 0 \/ flag = 1 -> mem name exclude = false ->
  remote (sent w) (Update server a p (Int (Z.lxor b flag))) <> Unreachable ->
  remote (sent w ++ [Update server a p (Int (Z.lxor b flag))])
         (Get server a p) = Response (Some j) ->
  subscript0 j = Ok x ->
  process_pin x 0 = Ok (Int (Z.lxor b flag)) ->
  (set_to_state name (PNum (Int b)) ;;; get_state name) w
  = (Ok (Int b),
     after (after w (Update server a p (Int (Z.lxor b flag))))
           (Get server a p)).
Proof.
  intros Hd Hp Ha Hf Hb Hflag Hex Hup Hget Hx Hs. unfold bind.
  rewrite (set_to_state_run name d p a flag (PNum (Int b))
             (Int (Z.lxor b flag)) w Hd Hf Hp Ha (process_pin_bit b flag Hb)).
  destruct (remote (sent w) (Update server a p (Int (Z.lxor b flag))));
    [now contradiction Hup |].
  rewrite (get_state_run name d p a _ Hd Hp Ha).
  cbn [after sent]. rewrite Hget. unfold decode. cbn [json and_then].
  rewrite Hx. cbn [and_then]. rewrite Hs. cbn [and_then].
  assert (Hin : in_0_1 (Int (Z.lxor b flag)) = true).
  { destruct (lxor_bit b flag Hb Hflag) as [-> | ->]; reflexivity. }
  rewrite Hin, Hex. cbn [negb orb].
  rewrite (entry_some name "default" default d flag Hd Hf). cbn [and_then].
  rewrite process_pin_bit by now apply lxor_bit.
  now rewrite Z.lxor_assoc, Z.lxor_nilpotent, Z.lxor_0_r.
Qed.

(** X7: a flip writes the complement of the state read when that is the
    int 0 or 1, and raises [TypeError] with nothing written when the state
    read is a float. *)
Theorem flip_complements (name : string) (d : device) (p a : string)
        (flag : Z) (w w1 : world) :
  assoc name all_devices = Some d ->
  pin d = Some p -> auth d = Some a -> default d = Some flag ->
  (forall b, b = 0 \/ b = 1 -> get_state name w = (Ok (Int b), w1) ->
     snd (flip_state name w)
     = after w1 (Update server a p (Int (Z.lxor (1 - b) flag))))
  /\ (forall f, get_state name w = (Ok (Float f), w1) ->
        flip_state name w = (Raise TypeError, w1)).
Proof.
  intros Hd Hp Ha Hf. split.
  - intros b Hb Hg. unfold flip_state, bind. rewrite Hg. cbn [lift xor_1].
    assert (Hc : Z.lxor b 1 = 1 - b) by (destruct Hb as [-> | ->]; reflexivity).
    rewrite Hc.
    rewrite (set_to_state_run name d p a flag (PNum (Int (1 - b)))
               (Int (Z.lxor (1 - b) flag)) w1 Hd Hf Hp Ha).
    + reflexivity.
    + apply process_pin_bit. lia.
  - intros f Hg. unfold flip_state, bind. now rewrite Hg.
Qed.

(** X8: [apply_function] goes through the devices in order and stops at
    the first that raises: the devices after it are not touched. *)
Theorem apply_function_stops (before rest : list string) (x : string)
        (func : string -> io unit) (w w1 w2 : world) (e : exn) :
  apply_function before func w = (Ok tt, w1) ->
  func x w1 = (Raise e, w2) ->
  apply_function (before ++ x :: rest) func w = (Raise e, w2).
Proof.
  intros Hb Hx. rewrite apply_function_app, Hb.
  cbn [apply_function]. unfold bind. now rewrite Hx.
Qed.

End Footprint.

Section DispatcherMore.

Context {builtins : Builtins} {config : Config} {network : Network}.

(** ** The dictionary of states *)

Lemma dict_set_fresh (status : list (string * num)) (name : string)
      (state : num) :
  ~ In name (map fst status) ->
  dict_set status name state = (status ++ [(name, state)])%list.
Proof.
  induction status as [| [k v] status IH]; cbn; intros Hn; [reflexivity |].
  destruct (String.eqb_spec name k) as [-> | Hne].
  - exfalso. apply Hn. now left.
  - rewrite IH; [reflexivity |]. intros H. apply Hn. now right.
Qed.

Lemma get_status_loop_fresh (devices : list string)
      (status : list (string * num)) (w : world) :
  NoDup devices ->
  (forall x, In x devices -> ~ In x (map fst status)) ->
  (forall name, In name devices -> readable name) ->
  exists d w1,
    get_status_loop devices status w = (Ok d, w1)
    /\ map fst d = (map fst status ++ devices)%list.
Proof.
  revert status w. induction devices as [| name devices IH];
    intros status w Hnd Hfresh Hr.
  - exists status, w. split; [reflexivity | now rewrite app_nil_r].
  - inversion Hnd as [| ? ? Hnin Hnd']; subst.
    destruct (Hr name (or_introl eq_refl) w) as (state & w0 & Hg).
    destruct (IH (dict_set status name state) w0 Hnd') as (d & w1 & Hrun & Hk).
    + intros x Hx. rewrite dict_set_keys. intros [-> | Hin].
      * contradiction.
      * apply (Hfresh x); [now right | exact Hin].
    + intros x Hx. apply Hr. now right.
    + exists d, w1. split.
      * cbn [get_status_loop]. unfold bind. now rewrite Hg.
      * rewrite Hk, dict_set_fresh by (apply Hfresh; now left).
        rewrite map_app. cbn. now rewrite <- app_assoc.
Qed.

(** X9: for devices named once each, all readable, the dictionary of
    states has the devices as its keys, in the order they were given. *)
Theorem get_status_as_dict_keys (devices : list string) (w : world) :
  NoDup devices ->
  (forall name, In name devices -> readable name) ->
  exists d w1,
    get_status_as_dict devices w = (Ok d, w1)
    /\ map fst d = devices.
Proof.
  intros Hnd Hr. unfold get_status_as_dict.
  destruct (get_status_loop_fresh devices [] w Hnd) as (d & w1 & Hrun & Hk);
    [intros x _ [] | exact Hr |].
  now exists d, w1.
Qed.

(** ** No device *)

(** X10: on an empty list of devices the print action raises [ValueError]
    (the longest name of no name) and prints nothing, the status action
    prints the empty dictionary, and the flip, off and on actions do
    nothing. *)
Theorem no_device (action : string) (w : world) :
  (verb_of action = Print -> take_action action [] w = (Raise ValueError, w))
  /\ (verb_of action = Status ->
      take_action action [] w
      = (Ok tt, {| sent := sent w; stdout := stdout w ++ [PrintDict []] |}))
  /\ (verb_of action = Flip \/ verb_of action = Off \/ verb_of action = On ->
      take_action action [] w = (Ok tt, w)).
Proof.
  rewrite take_action_verb. split; [| split].
  - now intros ->.
  - now intros ->.
  - now intros [-> | [-> | ->]].
Qed.

(** ** Switching every device *)

(** X11: the command line [all on] or [all off] (or [a] for [all]) writes
    the logical value 1 or 0 to every device of the table that is not
    excluded, in the order of the table, and to no other, when their entries
    are complete and the service answers. *)
Theorem main_all_switch (prog first action : string) (rest : list string)
        (v : Z) (w : world) :
  first = "all" \/ first = "a" ->
  (verb_of action = On /\ v = 1) \/ (verb_of action = Off /\ v = 0) ->
  (forall name, In name keys -> ~ In name exclude -> complete name) ->
  (forall h r, remote h r <> Unreachable) ->
  exists reqs,
    main (prog :: first :: rest ++ [action]) w
    = (Ok tt, {| sent := sent w ++ reqs; stdout := stdout w |})
    /\ Forall2 (writes_to v) (filter (fun x => negb (mem x exclude)) keys) reqs.
Proof.
  intros Hf Hv Hk Hnet.
  set (chosen := filter (fun x => negb (mem x exclude)) keys).
  assert (Hreads : reads action = false).
  { unfold reads. now destruct Hv as [[-> _] | [-> _]]. }
  assert (Hc : choose_devices action (first :: rest) = Ok chosen).
  { unfold choose_devices.
    replace (mem first ["all"; "a"]) with true
      by (symmetry; apply mem_In; destruct Hf as [-> | ->]; cbn; auto).
    unfold chosen. f_equal. apply filter_ext. intros x.
    now rewrite reads_prefix, Hreads, orb_false_r. }
  destruct (apply_writes v chosen w) as [reqs [Hrun Hall]].
  { destruct Hv as [[_ ->] | [_ ->]]; auto. }
  { exact Hnet. }
  { intros name Hn. apply filter_In in Hn. destruct Hn as [Hin Hex].
    apply Hk; [exact Hin |]. apply mem_not_In. now apply negb_true_iff. }
  exists reqs. split; [| exact Hall]. unfold main.
  replace (List.length (prog :: first :: rest ++ [action]) <? 3)%nat with false
    by (symmetry; apply Nat.ltb_ge; cbn; rewrite length_app; cbn; lia).
  cbn [tl].
  change (first :: rest ++ [action])%list
    with ((first :: rest) ++ [action])%list.
  rewrite last_last, removelast_last.
  unfold bind, lift. rewrite Hc, take_action_verb.
  destruct Hv as [[-> ->] | [-> ->]]; exact Hrun.
Qed.

(** ** Setting a number *)

Lemma apply_encoded (value : pyval) (enc : Z -> num) (l : list string)
      (w : world) :
  (forall flag, process_pin value flag = Ok (enc flag)) ->
  (forall h r, remote h r <> Unreachable) ->
  (forall name, In name l -> complete name) ->
  exists reqs,
    apply_function l (fun name => set_to_state name value) w
    = (Ok tt, {| sent := sent w ++ reqs; stdout := stdout w |})
    /\ Forall2 (fun name r =>
                  exists d p a flag,
                    assoc name all_devices = Some d /\ pin d = Some p
                    /\ auth d = Some a /\ default d = Some flag
                    /\ r = Update server a p (enc flag)) l reqs.
Proof.
  intros Henc Hnet. revert w. induction l as [| name l IH]; intros w Hc.
  - exists []. split; [| constructor]. cbn. unfold ret.
    rewrite app_nil_r. now destruct w.
  - destruct (Hc name (or_introl eq_refl))
      as (d & p & a & flag & g & Hd & Hp & Ha & Hf & _).
    set (r := Update server a p (enc flag)).
    destruct (IH (after w r)) as [reqs [Hrun Hall]].
    { intros x Hx. apply Hc. now right. }
    exists (r :: reqs). split.
    + cbn [apply_function]. unfold bind.
      rewrite (set_to_state_run name d p a flag value (enc flag) w
                 Hd Hf Hp Ha (Henc flag)).
      fold r. destruct (remote (sent w) r) eqn:Hr; [now apply Hnet in Hr |].
      rewrite Hrun. cbn. now rewrite <- app_assoc.
    + constructor; [| exact Hall]. now exists d, p, a, flag.
Qed.

(** X12: a numeric action token writes its number to every resolved device,
    in order.  A number with a fractional part goes out as it is, whatever
    the default flags; a whole number goes out as an int, exclusive-or the
    default flag of each device. *)
Theorem numeric_set_writes (action : string) (f : float)
        (args : list string) (w : world) :
  verb_of action = SetValue -> float_of_string action = Some f ->
  (forall name, In name args -> complete name) ->
  (forall h r, remote h r <> Unreachable) ->
  exists reqs,
    take_action action args w
    = (Ok tt, {| sent := sent w ++ reqs; stdout := stdout w |})
    /\ (is_integer f = false -> Forall2 (writes_raw (Float f)) args reqs)
    /\ (forall i, is_integer f = true -> int_of_float f = Ok i ->
          Forall2 (writes_to i) args reqs).
Proof.
  intros Hv Hp Hc Hnet. rewrite take_action_verb, Hv, Hp.
  destruct (is_integer f) eqn:Hi.
  - destruct (int_of_float f) as [i | e] eqn:Hz.
    + destruct (apply_encoded (PNum (Float f)) (fun flag => Int (Z.lxor i flag))
                  args w) as [reqs [Hrun Hall]]; try assumption.
      { intros flag. now apply process_pin_whole with (f := f). }
      exists reqs. split; [exact Hrun | split; [discriminate |]].
      intros i' _ [= <-]. exact Hall.
    + destruct f as [s | s | | s m e']; cbn in Hi, Hz; discriminate.
  - destruct (apply_encoded (PNum (Float f)) (fun _ => Float f) args w)
      as [reqs [Hrun Hall]]; try assumption.
    { intros flag. now apply process_pin_fractional_aux. }
    exists reqs. split; [exact Hrun | split; [| discriminate]].
    intros _. exact Hall.
Qed.

End DispatcherMore.

(** ** Further runs on the configuration of the source *)

Lemma unknown_device_fails_witness :
  main (builtins := decimal_builtins) (config := blynk) (network := ones)
       ["blynk.py"; "garage"; "kitchen_light"; "on"] start
  = (Raise (KeyError (PStr "garage")), start).
Proof.
  refine (proj2 (proj2 (proj2 (unknown_device_fails
            (builtins := decimal_builtins) (config := blynk)
            (network := ones) "garage" _)))
            "on" "blynk.py" ["kitchen_light"] start _ _ _);
    try reflexivity.
  left. discriminate.
Defined.

Lemma get_state_bad_reply_witness :
  snd (get_state (builtins := decimal_builtins) (config := blynk)
                 (network := ones) "humidity" start)
  = after start (Get "http://blynk-cloud.com" "<auth_token>" "V5").
Proof.
  refine (proj1 (get_state_bad_reply
            (builtins := decimal_builtins) (config := blynk)
            (network := ones) "humidity"
            {| pin := Some "V5"; auth := Some "<auth_token>";
               default := None; group := None |}
            "V5" "<auth_token>" start _ _ _)); reflexivity.
Defined.

Lemma reads_never_write_witness :
  exists reqs,
    sent (snd (take_action (builtins := decimal_builtins) (config := blynk)
                 (network := ones) "print" ["humidity"; "garage"] start))
    = ([] ++ reqs)%list
    /\ forallb is_get reqs = true /\ (List.length reqs <= 2)%nat.
Proof.
  apply (reads_never_write (builtins := decimal_builtins) (config := blynk)
           (network := ones) "print" ["humidity"; "garage"] start).
  left. reflexivity.
Defined.

Lemma writes_never_read_witness :
  extends is_update 1 start
    (snd (take_action (builtins := decimal_builtins) (config := blynk)
            (network := ones) "off" ["kitchen_light"] start)).
Proof.
  apply (writes_never_read (builtins := decimal_builtins) (config := blynk)
           (network := ones) "off" (PNum (Int 0)) ["kitchen_light"] start).
  reflexivity.
Defined.

Lemma write_then_read_witness :
  (set_to_state (builtins := decimal_builtins) (config := blynk)
                (network := keeping_service) "kitchen_light" (PNum (Int 1)) ;;;
   get_state (builtins := decimal_builtins) (config := blynk)
             (network := keeping_service) "kitchen_light") start
  = (Ok (Int 1),
     {| sent := [Update "http://blynk-cloud.com" "<auth_token>" "d2" (Int 0);
                 Get "http://blynk-cloud.com" "<auth_token>" "d2"];
        stdout := [] |}).
Proof.
  refine (write_then_read (builtins := decimal_builtins) (config := blynk)
            (network := keeping_service) "kitchen_light"
            {| pin := Some "d2"; auth := Some "<auth_token>";
               default := Some 1; group := Some "kitchen" |}
            "d2" "<auth_token>" 1 1 start (PList [PNum (Int 0)])
            (PNum (Int 0)) _ _ _ _ _ _ _ _ _ _ _);
    try reflexivity; try (right; reflexivity).
  discriminate.
Defined.

Lemma flip_complements_witness :
  snd (flip_state (builtins := decimal_builtins) (config := blynk)
                  (network := constant_service (PStr "0"))
                  "bedroom_light" start)
  = {| sent := [Get "http://blynk-cloud.com" "<auth_token>" "V3";
                Update "http://blynk-cloud.com" "<auth_token>" "V3" (Int 1)];
       stdout := [] |}.
Proof.
  refine (proj1 (flip_complements
            (builtins := decimal_builtins) (config := blynk)
            (network := constant_service (PStr "0")) "bedroom_light"
            {| pin := Some "V3"; auth := Some "<auth_token>";
               default := Some 0; group := Some "bedroom" |}
            "V3" "<auth_token>" 0 start
            (after start (Get "http://blynk-cloud.com" "<auth_token>" "V3"))
            _ _ _ _) 0 _ _); try reflexivity.
  left. reflexivity.
Defined.

Lemma apply_function_stops_witness :
  apply_function ["kitchen_light"; "temperature"; "bedroom_light"]
    (fun name => set_to_state (builtins := decimal_builtins)
                   (config := blynk) (network := ones) name (PNum (Int 1)))
    start
  = (Raise (KeyError (PStr "default")),
     after start (Update "http://blynk-cloud.com" "<auth_token>" "d2" (Int 0))).
Proof.
  refine (apply_function_stops ["kitchen_light"] ["bedroom_light"]
            "temperature"
            (fun name => set_to_state (builtins := decimal_builtins)
                           (config := blynk) (network := ones) name
                           (PNum (Int 1)))
            start _ _ _ _ _); reflexivity.
Defined.

Lemma get_status_as_dict_keys_witness :
  exists d w1,
    get_status_as_dict (builtins := decimal_builtins) (config := blynk)
                       (network := ones) ["temperature"; "bedroom_light"] start
    = (Ok d, w1)
    /\ map fst d = ["temperature"; "bedroom_light"].
Proof.
  apply (get_status_as_dict_keys (builtins := decimal_builtins)
           (config := blynk) (network := ones)
           ["temperature"; "bedroom_light"] start).
  - constructor.
    + cbn. intros [E | []]. discriminate.
    + constructor; [intros [] | constructor].
  - intros name H. apply ones_readable. cbn in *.
    destruct H as [<- | [<- | []]]; auto.
Defined.

Lemma no_device_witness :
  take_action (builtins := decimal_builtins) (config := blynk)
              (network := ones) "print" [] start
  = (Raise ValueError, start).
Proof.
  apply (proj1 (no_device (builtins := decimal_builtins) (config := blynk)
                  (network := ones) "print" start)).
  reflexivity.
Defined.

Lemma main_all_switch_witness :
  exists reqs,
    main (builtins := decimal_builtins) (config := blynk) (network := ones)
         ["blynk.py"; "all"; "off"] start
    = (Ok tt, {| sent := [] ++ reqs; stdout := [] |})
    /\ Forall2 (writes_to (config := blynk) 0)
               ["bedroom_light"; "kitchen_light"] reqs.
Proof.
  apply (main_all_switch (builtins := decimal_builtins) (config := blynk)
           (network := ones) "blynk.py" "all" "off" [] 0 start).
  - left. reflexivity.
  - right. split; reflexivity.
  - apply blynk_complete.
  - discriminate.
Defined.

Lemma numeric_set_writes_witness :
  exists reqs,
    take_action (builtins := fraction_builtins) (config := blynk)
                (network := ones) "21.5" ["kitchen_light"] start
    = (Ok tt, {| sent := [] ++ reqs; stdout := [] |})
    /\ Forall2 (writes_raw (config := blynk) (Float f21_5))
               ["kitchen_light"] reqs.
Proof.
  destruct (numeric_set_writes (builtins := fraction_builtins)
              (config := blynk) (network := ones) "21.5" f21_5
              ["kitchen_light"] start) as (reqs & Hrun & Hfrac & _).
  - reflexivity.
  - reflexivity.
  - intros name [<- | []]. apply blynk_complete.
    + right. now left.
    + cbn. intros [E | [E | []]]; discriminate.
  - discriminate.
  - exists reqs. split; [exact Hrun | now apply Hfrac].
Defined.

(** The stand-in interpreter rejects what has no digit, as [float] does. *)
Example decimal_builtins_rejects :
  float_of_string (Builtins := decimal_builtins) "" = None
  /\ float_of_string (Builtins := decimal_builtins) "-" = None
  /\ float_of_string (Builtins := decimal_builtins) "toggle" = None.
Proof. repeat split. Qed.
